(** * The lookup command line of THERA-IE: [utilities/quickumls_wrapper.py]

    A shallow embedding of the wrapper around the QuickUMLS matcher, and
    the properties of its contract.

    The script is Python, so the embedding has two layers.  Module [Py]
    models the part of the Python runtime the script relies on: the values
    a concept dictionary may hold, [str], [repr], [<], [list()],
    [str.strip], the [.3f] format, [json.dumps] and exceptions.  After it
    come the four functions of the script, in the order and with the names
    of the source.

    Conventions of the model:
    - a Python [str] is a [string]; each character stands for the code
      point of the same number (the code points below 256);
    - a Python [float] is a [spec_float]; the floats of Python are those
      that are valid for binary64 ([valid_binary 53 1024]);
    - an exception that [except Exception] catches is an [exception]; it
      carries the text that [str(e)] returns.  [sys.exit] is not such an
      exception and has an outcome of its own ([Exit]);
    - the matcher, the import of its library, the file system and the
      parsed arguments are given from outside ([Matcher], [Env], [Args]):
      the model starts in [main] after [parser.parse_args()].  The preload
      of the shared library when the script is loaded (line 19) comes
      before that and is not part of it;
    - standard output is the list of the texts printed, one per [print]
      call. *)

From Stdlib Require Import ZArith QArith List String Ascii Bool Lia.
From Stdlib Require Import Sorting.Sorted Sorting.Permutation.
From Stdlib Require Import DecimalString DecimalPos SpecFloat.
Import ListNotations.

Local Open Scope list_scope.
Local Open Scope string_scope.
Local Open Scope Z_scope.

(* ================================================================= *)
(** ** The Python runtime *)

Module Py.

(** [Exception(msg)]: what [str(e)] gives is all the script looks at. *)
Inductive exception : Type :=
| Exception (msg : string).

Definition exn_str (e : exception) : string :=
  match e with Exception msg => msg end.

(** A computation that returns or raises. *)
Definition result (A : Type) : Type := (exception + A)%type.

Definition ret {A} (a : A) : result A := inr a.
Definition raise {A} (msg : string) : result A := inl (Exception msg).
Definition bind {A B} (c : result A) (k : A -> result B) : result B :=
  match c with
  | inl e => inl e
  | inr a => k a
  end.

(** [try: body  except Exception as e: handler(e)] *)
Definition try_except {A} (body : result A) (handler : exception -> A) : A :=
  match body with
  | inl e => handler e
  | inr a => a
  end.

(** The values found under the keys of a concept dictionary. *)
Inductive pyval : Type :=
| PyNone
| PyBool (b : bool)
| PyInt (z : Z)
| PyFloat (f : spec_float)
| PyStr (s : string)
| PyList (l : list string).   (* a list of [str] *)

(** A [dict] with [str] keys, in insertion order. *)
Definition dict (V : Type) : Type := list (string * V).

Fixpoint dict_get {V} (d : dict V) (k : string) : option V :=
  match d with
  | [] => None
  | (k', v) :: d' => if String.eqb k' k then Some v else dict_get d' k
  end.

(** [d.get(k, default)] *)
Definition get {V} (d : dict V) (k : string) (default : V) : V :=
  match dict_get d k with
  | Some v => v
  | None => default
  end.

(** [d[k] = v]: an existing key keeps its place. *)
Fixpoint dict_set {V} (d : dict V) (k : string) (v : V) : dict V :=
  match d with
  | [] => [(k, v)]
  | (k', v') :: d' =>
      if String.eqb k' k then (k', v) :: d' else (k', v') :: dict_set d' k v
  end.

(* ----------------------------------------------------------------- *)
(** *** Characters and strings *)

Definition code (c : ascii) : Z := Z.of_N (N_of_ascii c).
Definition chr (z : Z) : ascii := ascii_of_N (Z.to_N z).

Definition squote : ascii := chr 39.
Definition dquote : ascii := chr 34.
Definition newline : ascii := chr 10.

Definition str1 (c : ascii) : string := String c EmptyString.

Fixpoint chars (s : string) : list ascii :=
  match s with
  | EmptyString => []
  | String c s' => c :: chars s'
  end.

Fixpoint concat_map (f : ascii -> string) (s : string) : string :=
  match s with
  | EmptyString => EmptyString
  | String c s' => f c ++ concat_map f s'
  end.

Fixpoint contains (c : ascii) (s : string) : bool :=
  match s with
  | EmptyString => false
  | String c' s' => Ascii.eqb c' c || contains c s'
  end.

Fixpoint join (sep : string) (l : list string) : string :=
  match l with
  | [] => ""
  | [s] => s
  | s :: l' => s ++ sep ++ join sep l'
  end.

Fixpoint repeat_str (s : string) (n : nat) : string :=
  match n with
  | O => ""
  | S n' => s ++ repeat_str s n'
  end.

Definition rev_str (s : string) : string :=
  string_of_list_ascii (List.rev (list_ascii_of_string s)).

Definition hex_digit (z : Z) : ascii :=
  if z <? 10 then chr (48 + z) else chr (87 + z).

(** Two lower-case hexadecimal digits of a code point below 256. *)
Definition hex2 (z : Z) : string :=
  String (hex_digit (z / 16)) (str1 (hex_digit (z mod 16))).

(** [str(z)] for an [int]. *)
Definition int_str (z : Z) : string := NilZero.string_of_int (Z.to_int z).

Definition is_digit (c : ascii) : bool :=
  (48 <=? code c) && (code c <=? 57).

(** [c.isspace()] on the code points below 256. *)
Definition isspace (c : ascii) : bool :=
  let n := code c in
  ((9 <=? n) && (n <=? 13)) || ((28 <=? n) && (n <=? 32))
  || (n =? 133) || (n =? 160).

Fixpoint lstrip (s : string) : string :=
  match s with
  | EmptyString => EmptyString
  | String c s' => if isspace c then lstrip s' else s
  end.

(** [s.strip()] *)
Definition strip (s : string) : string :=
  rev_str (lstrip (rev_str (lstrip s))).

(** [c.isprintable()] on the code points below 256. *)
Definition isprintable (c : ascii) : bool :=
  let n := code c in
  ((32 <=? n) && (n <=? 126)) || ((161 <=? n) && negb (n =? 173)).

(** [repr(s)] for a [str]. *)
Definition repr_char (quote : ascii) (c : ascii) : string :=
  let n := code c in
  if Ascii.eqb c quote || (n =? 92) then String "\" (str1 c)
  else if n =? 9 then "\t"
  else if n =? 10 then "\n"
  else if n =? 13 then "\r"
  else if isprintable c then str1 c
  else "\x" ++ hex2 n.

Definition str_repr (s : string) : string :=
  let quote :=
    if contains squote s && negb (contains dquote s) then dquote else squote in
  str1 quote ++ concat_map (repr_char quote) s ++ str1 quote.

(* ----------------------------------------------------------------- *)
(** *** Numbers and their order *)

(** The value of a number: a rational, an infinity, or not a number. *)
Inductive number : Type :=
| NaN
| NegInf
| Real (q : Q)
| PosInf.

Definition pow2Q (e : Z) : Q :=
  match e with
  | Z0 => 1%Q
  | Zpos p => inject_Z (2 ^ Zpos p)
  | Zneg p => (1 # (2 ^ p))%Q
  end.

(** [m * 2^e], exactly. *)
Definition float_val (f : spec_float) : number :=
  match f with
  | S754_zero _ => Real 0
  | S754_infinity s => if s then NegInf else PosInf
  | S754_nan => NaN
  | S754_finite s m e =>
      Real (inject_Z (if s then Zneg m else Zpos m) * pow2Q e)
  end.

(** The numeric value of a [bool], [int] or [float]; nothing else has one. *)
Definition number_of (v : pyval) : option number :=
  match v with
  | PyBool b => Some (Real (if b then 1 else 0))
  | PyInt z => Some (Real (inject_Z z))
  | PyFloat f => Some (float_val f)
  | _ => None
  end.

Definition Qltb (p q : Q) : bool := negb (Qle_bool q p).

(** [a < b] on numbers: exact, and false when either side is a NaN. *)
Definition num_lt (a b : number) : bool :=
  match a, b with
  | NaN, _ | _, NaN => false
  | _, NegInf => false
  | NegInf, _ => true
  | PosInf, _ => false
  | Real _, PosInf => true
  | Real p, Real q => Qltb p q
  end.

(** [isinstance(v, (int, float))]; a [bool] is an [int]. *)
Definition is_int_or_float (v : pyval) : bool :=
  match v with
  | PyBool _ | PyInt _ | PyFloat _ => true
  | _ => false
  end.

(** [type(v).__name__] *)
Definition type_name (v : pyval) : string :=
  match v with
  | PyNone => "NoneType"
  | PyBool _ => "bool"
  | PyInt _ => "int"
  | PyFloat _ => "float"
  | PyStr _ => "str"
  | PyList _ => "list"
  end.

(** [a < b] on lists of [str]: the first place where they differ decides,
    a proper prefix is smaller. *)
Fixpoint list_lt (a b : list string) : bool :=
  match a, b with
  | _, [] => false
  | [], _ :: _ => true
  | x :: a', y :: b' => if String.eqb x y then list_lt a' b' else String.ltb x y
  end.

(** [a < b].  Numbers compare with numbers, [str] with [str], lists with
    lists; every other pair is a [TypeError]. *)
Definition py_lt (a b : pyval) : result bool :=
  match number_of a, number_of b with
  | Some x, Some y => ret (num_lt x y)
  | _, _ =>
      match a, b with
      | PyStr s, PyStr t => ret (String.ltb s t)
      | PyList l, PyList k => ret (list_lt l k)
      | _, _ =>
          raise ("'<' not supported between instances of '" ++ type_name a
                 ++ "' and '" ++ type_name b ++ "'")
      end
  end.

(** [list(v)]: the elements of a list, the characters of a [str]. *)
Definition py_list (v : pyval) : result (list string) :=
  match v with
  | PyList l => ret l
  | PyStr s => ret (List.map str1 (chars s))
  | _ => raise ("'" ++ type_name v ++ "' object is not iterable")
  end.

(* ----------------------------------------------------------------- *)
(** *** Floats as text *)

(** A finite float [m * 2^e] with its mantissa on 53 bits, as far as the
    exponent range of binary64 allows. *)
Definition normalize64 (m : positive) (e : Z) : Z * Z :=
  let s := Z.max 0 (Z.min (53 - Zpos (digits2_pos m)) (e + 1074)) in
  (Zpos m * 2 ^ s, e - s).

Definition ndigits (d : Z) : Z := Z.of_nat (String.length (int_str d)).

(** The least [j], from the one given upwards, with [x * 10^j >= D]. *)
Fixpoint first_scale (fuel : nat) (j : Z) (x D : Z) : Z :=
  match fuel with
  | O => j
  | S fuel' => if D <=? x then j else first_scale fuel' (j + 1) (x * 10) D
  end.

(** [floor(log10(x / D))] for positive [x] and [D]. *)
Definition floor_log10 (x D : Z) : Z :=
  if D <=? x then ndigits (x / D) - 1 else - first_scale 400 0 x D.

(** The decimal with the fewest digits that rounds to the float, and among
    these the nearest one: its digits [d] and exponent [k], the value being
    [d * 10^k].  [X], [L] and [H] over [D] are the float and the two ends of
    the interval of reals that round to it. *)
Fixpoint shortest (fuel : nat) (n : Z) (p : Z) (closed : bool) (X L H D : Z)
  : Z * Z :=
  let k := p - (n - 1) in
  let up := 10 ^ Z.max 0 (- k) in
  let B := D * 10 ^ Z.max 0 k in
  let A := X * up in
  let d := A / B in
  let r := A mod B in
  let inside c :=
    if closed then (L * up <=? c * B) && (c * B <=? H * up)
    else (L * up <? c * B) && (c * B <? H * up) in
  match fuel with
  | O => (d, k)
  | S fuel' =>
      if r =? 0 then (d, k)
      else if inside d && inside (d + 1) then
        match 2 * r ?= B with
        | Lt => (d, k)
        | Gt => (d + 1, k)
        | Eq => if Z.even d then (d, k) else (d + 1, k)
        end
      else if inside d then (d, k)
      else if inside (d + 1) then (d + 1, k)
      else shortest fuel' (n + 1) p closed X L H D
  end.

Fixpoint strip_zeros_rev (l : list ascii) : list ascii :=
  match l with
  | c :: l' => if Ascii.eqb c "0" then strip_zeros_rev l' else l
  | [] => []
  end.

Definition strip_trailing_zeros (s : string) : string :=
  string_of_list_ascii
    (List.rev (strip_zeros_rev (List.rev (list_ascii_of_string s)))).

Definition pad2 (s : string) : string :=
  if (String.length s <? 2)%nat then "0" ++ s else s.

(** The digits and the position of the decimal point, laid out as [repr]
    does: with an exponent when the point is far from the digits. *)
Definition layout_repr (ds : string) (decpt : Z) : string :=
  let n := Z.of_nat (String.length ds) in
  if (decpt <=? -4) || (16 <? decpt) then
    let mant :=
      match ds with
      | String c EmptyString => str1 c
      | String c rest => String c ("." ++ rest)
      | EmptyString => ""
      end in
    mant ++ "e" ++ (if decpt - 1 <? 0 then "-" else "+")
         ++ pad2 (int_str (Z.abs (decpt - 1)))
  else if decpt <=? 0 then
    "0." ++ repeat_str "0" (Z.to_nat (- decpt)) ++ ds
  else if n <=? decpt then
    ds ++ repeat_str "0" (Z.to_nat (decpt - n)) ++ ".0"
  else
    substring 0 (Z.to_nat decpt) ds ++ "."
      ++ substring (Z.to_nat decpt) (Z.to_nat (n - decpt)) ds.

Definition finite_repr (m : positive) (e : Z) : string :=
  let '(M, E) := normalize64 m e in
  let boundary := (M =? 2 ^ 52) && (-1074 <? E) in
  let up := 2 ^ Z.max 0 (E - 2) in
  let D := 2 ^ Z.max 0 (2 - E) in
  let X := 4 * M * up in
  let L := (if boundary then 4 * M - 1 else 4 * M - 2) * up in
  let H := (4 * M + 2) * up in
  let '(d, k) := shortest 17 1 (floor_log10 X D) (Z.even M) X L H D in
  let ds := int_str d in
  layout_repr (strip_trailing_zeros ds) (Z.of_nat (String.length ds) + k).

(** [repr(f)], which is also [str(f)]. *)
Definition float_repr (f : spec_float) : string :=
  match f with
  | S754_zero s => if s then "-0.0" else "0.0"
  | S754_infinity s => if s then "-inf" else "inf"
  | S754_nan => "nan"
  | S754_finite s m e => (if s then "-" else "") ++ finite_repr m e
  end.

(** [m * 2^e * 1000] rounded to an integer, halves to the even side. *)
Definition round_thousandths (m : positive) (e : Z) : Z :=
  let A := Zpos m * 1000 * 2 ^ Z.max 0 e in
  let B := 2 ^ Z.max 0 (- e) in
  let q := A / B in
  match 2 * (A mod B) ?= B with
  | Lt => q
  | Gt => q + 1
  | Eq => if Z.even q then q else q + 1
  end.

Definition digit (z : Z) : ascii := chr (48 + z).

(** A count of thousandths written with three decimals. *)
Definition fixed3 (q : Z) : string :=
  int_str (q / 1000) ++ "."
    ++ String (digit (q / 100 mod 10))
         (String (digit (q / 10 mod 10)) (str1 (digit (q mod 10)))).

(** [format(f, '.3f')] for a [float]. *)
Definition float_format_3f (f : spec_float) : string :=
  match f with
  | S754_zero s => if s then "-0.000" else "0.000"
  | S754_infinity s => if s then "-inf" else "inf"
  | S754_nan => "nan"
  | S754_finite s m e =>
      (if s then "-" else "") ++ fixed3 (round_thousandths m e)
  end.

(** [float(z)] for an [int]: the nearest float, or an [OverflowError]. *)
Definition int_to_float (z : Z) : result spec_float :=
  match binary_normalize 53 1024 z 0 false with
  | S754_infinity _ => raise "int too large to convert to float"
  | f => ret f
  end.

(** [format(v, '.3f')], the [{...:.3f}] of an f-string. *)
Definition format_3f (v : pyval) : result string :=
  match v with
  | PyFloat f => ret (float_format_3f f)
  | PyInt z => bind (int_to_float z) (fun f => ret (float_format_3f f))
  | PyBool b => ret (if b then "1.000" else "0.000")
  | PyStr _ => raise "Unknown format code 'f' for object of type 'str'"
  | PyNone => raise "unsupported format string passed to NoneType.__format__"
  | PyList _ => raise "unsupported format string passed to list.__format__"
  end.

(** [str(v)] *)
Definition py_str (v : pyval) : string :=
  match v with
  | PyNone => "None"
  | PyBool b => if b then "True" else "False"
  | PyInt z => int_str z
  | PyFloat f => float_repr f
  | PyStr s => s
  | PyList l => "[" ++ join ", " (List.map str_repr l) ++ "]"
  end.

(* ----------------------------------------------------------------- *)
(** *** [json.dumps] *)

#[local] Set Warnings "-register-all".
Inductive json : Type :=
| JNull
| JBool (b : bool)
| JInt (z : Z)
| JFloat (f : spec_float)
| JStr (s : string)
| JArr (items : list json)
| JObj (members : list (string * json)).

(** One character inside a JSON string, with [ensure_ascii] on. *)
Definition json_char (c : ascii) : string :=
  let n := code c in
  if n =? 34 then String "\" (str1 dquote)
  else if n =? 92 then "\\"
  else if n =? 10 then "\n"
  else if n =? 13 then "\r"
  else if n =? 9 then "\t"
  else if n =? 12 then "\f"
  else if n =? 8 then "\b"
  else if (32 <=? n) && (n <=? 126) then str1 c
  else "\u00" ++ hex2 n.

Definition json_str (s : string) : string :=
  str1 dquote ++ concat_map json_char s ++ str1 dquote.

Definition json_float (f : spec_float) : string :=
  match f with
  | S754_nan => "NaN"
  | S754_infinity s => if s then "-Infinity" else "Infinity"
  | _ => float_repr f
  end.

(** The line break and the indentation in front of an item at [level];
    nothing when no [indent] is asked for. *)
Definition newline_indent (indent : option nat) (level : nat) : string :=
  match indent with
  | None => ""
  | Some n => str1 newline ++ repeat_str " " (n * level)
  end.

Definition item_separator (indent : option nat) (level : nat) : string :=
  match indent with
  | None => ", "
  | Some _ => "," ++ newline_indent indent level
  end.

Fixpoint dumps_at (indent : option nat) (level : nat) (j : json) : string :=
  match j with
  | JNull => "null"
  | JBool b => if b then "true" else "false"
  | JInt z => int_str z
  | JFloat f => json_float f
  | JStr s => json_str s
  | JArr [] => "[]"
  | JArr items =>
      "[" ++ newline_indent indent (S level)
        ++ join (item_separator indent (S level))
             (List.map (dumps_at indent (S level)) items)
        ++ newline_indent indent level ++ "]"
  | JObj [] => "{}"
  | JObj members =>
      "{" ++ newline_indent indent (S level)
        ++ join (item_separator indent (S level))
             (List.map
                (fun kv => json_str (fst kv) ++ ": "
                           ++ dumps_at indent (S level) (snd kv))
                members)
        ++ newline_indent indent level ++ "}"
  end.

(** [json.dumps(j)] and [json.dumps(j, indent=n)] *)
Definition json_dumps (indent : option nat) (j : json) : string :=
  dumps_at indent 0 j.

Definition to_json (v : pyval) : json :=
  match v with
  | PyNone => JNull
  | PyBool b => JBool b
  | PyInt z => JInt z
  | PyFloat f => JFloat f
  | PyStr s => JStr s
  | PyList l => JArr (List.map JStr l)
  end.

(* ----------------------------------------------------------------- *)
(** *** [list.sort], text files *)

(** A loop whose body may raise: [for x in l: s = body(x, s)]. *)
Fixpoint for_each {A S} (l : list A) (body : A -> S -> result S) (s : S)
  : result S :=
  match l with
  | [] => ret s
  | x :: l' => bind (body x s) (for_each l' body)
  end.

(** Puts [x] behind every element that is not smaller than it. *)
Fixpoint insert_desc {A} (key : A -> pyval) (x : A) (l : list A)
  : result (list A) :=
  match l with
  | [] => ret [x]
  | y :: l' =>
      bind (py_lt (key y) (key x)) (fun smaller =>
        if smaller then ret (x :: y :: l')
        else bind (insert_desc key x l') (fun r => ret (y :: r)))
  end.

(** [l.sort(key=key, reverse=True)]: a stable sort, largest key first, that
    only asks [<] of the keys and raises what [<] raises.

    CPython sorts with Timsort.  Where [<] is a strict weak order on the
    keys, every stable sort returns the same list, and insertion gives it.
    On keys that [<] refuses, both raise a [TypeError] (the text of which
    names the pair that was compared first, so it may differ).  On keys
    that [<] does not order, as with a NaN among them, the result of
    Timsort depends on its run detection and is not modelled here. *)
Definition sort_reverse {A} (key : A -> pyval) (l : list A)
  : result (list A) :=
  for_each l (insert_desc key) [].

(** Text of a file as read in text mode: every [\r\n] and every [\r]
    arrives as [\n]. *)
Fixpoint universal_newlines (s : string) : string :=
  match s with
  | EmptyString => EmptyString
  | String c s' =>
      if code c =? 13 then
        match s' with
        | String c' s'' =>
            if code c' =? 10 then String newline (universal_newlines s'')
            else String newline (universal_newlines s')
        | EmptyString => str1 newline
        end
      else String c (universal_newlines s')
  end.

(** [for line in f]: the lines with their line ends. *)
Fixpoint lines_from (cur : string) (s : string) : list string :=
  match s with
  | EmptyString => if String.eqb cur "" then [] else [rev_str cur]
  | String c s' =>
      if code c =? 10 then rev_str (String c cur) :: lines_from "" s'
      else lines_from (String c cur) s'
  end.

Definition readlines (text : string) : list string :=
  lines_from "" (universal_newlines text).

End Py.

Import Py.

(* ================================================================= *)
(** ** The process: standard output, [sys.exit], uncaught exceptions *)

Inductive outcome (A : Type) : Type :=
| Return (a : A)
| Raise (e : exception)
| Exit (code : Z).

Arguments Return {A} a.
Arguments Raise {A} e.
Arguments Exit {A} code.

(** A step of the process: from the lines printed so far to an outcome
    and the lines printed after it.  One [print] call is one entry. *)
Definition proc (A : Type) : Type := list string -> outcome A * list string.

Definition pure {A} (a : A) : proc A := fun out => (Return a, out).

Definition seq {A B} (c : proc A) (k : A -> proc B) : proc B :=
  fun out =>
    match c out with
    | (Return a, out') => k a out'
    | (Raise e, out') => (Raise e, out')
    | (Exit code, out') => (Exit code, out')
    end.

Notation "x <- c ;; k" := (seq c (fun x => k))
  (at level 61, c at next level, right associativity).
Notation "c ;;; k" := (seq c (fun _ => k))
  (at level 61, right associativity).

Definition print (s : string) : proc unit :=
  fun out => (Return tt, out ++ [s])%list.

Definition sys_exit {A} (code : Z) : proc A := fun out => (Exit code, out).

Definition lift {A} (r : result A) : proc A :=
  fun out =>
    match r with
    | inl e => (Raise e, out)
    | inr a => (Return a, out)
    end.

(** [try: body  except Exception as e: handler(e)].  [sys.exit] raises
    [SystemExit], which is no [Exception]: it passes through. *)
Definition try_proc {A} (body : proc A) (handler : exception -> proc A)
  : proc A :=
  fun out =>
    match body out with
    | (Raise e, out') => handler e out'
    | other => other
    end.

Fixpoint for_proc {A} (l : list A) (body : A -> proc unit) : proc unit :=
  match l with
  | [] => pure tt
  | x :: l' => body x ;;; for_proc l' body
  end.

(** How the process ends. *)
Inductive status : Type :=
| Exited (code : Z)
| Traceback (e : exception).   (* an exception nobody caught *)

Definition run (c : proc unit) : status * list string :=
  match c [] with
  | (Return _, out) => (Exited 0, out)
  | (Exit code, out) => (Exited code, out)
  | (Raise e, out) => (Traceback e, out)
  end.

(* ================================================================= *)
(** ** The wrapper *)

(** A candidate concept, as the matcher returns it: a dictionary. *)
Definition concept : Type := dict pyval.

(** The matcher: [matcher.match(text, best_match=..., ignore_syntax=...)]
    returns groups of candidates, or raises. *)
Record Matcher : Type := {
  match_ : string -> bool -> bool -> result (list (list concept))
}.

(** What the script finds around it. *)
Record Env : Type := {
  import_quickumls : result unit;      (* [from quickumls import QuickUMLS] *)
  path_exists : string -> bool;        (* [os.path.exists] *)
  QuickUMLS : string -> spec_float -> Z -> result Matcher;
                                       (* [QuickUMLS(path, threshold, window)] *)
  open_read : string -> result string  (* the text of [open(path, 'r')] *)
}.

(** The dictionary built for a candidate (lines 60-66). *)
Record match_record : Type := {
  cui : pyval;
  preferred_name : pyval;
  similarity : pyval;
  semtypes : list string;
  method : string
}.

(** An element of a result list: a candidate, or [{"error": ...}]. *)
Inductive entry : Type :=
| Found (r : match_record)
| Failed (error : string).

(** What [batch_query_quickumls] returns: the mapping, or [{"error": ...}]. *)
Inductive batch : Type :=
| Results (batch_results : dict (list entry))
| BatchFailed (error : string).

Inductive output_format : Type := json_format | simple_format.

(** The namespace that [parser.parse_args()] returns. *)
Record Args : Type := {
  term : option string;
  batch_file : option string;
  batch_terms : option (list string);
  output : output_format
}.

Definition index_path : string :=
  "/users/isarkar/sarkarcode/_data/quickumls/quickumls_index".

(** The literal [0.7]. *)
Definition threshold : spec_float := S754_finite false 6305039478318694 (-53).

Definition error_json (msg : string) : json := JObj [("error", JStr msg)].

Definition initialize_quickumls (env : Env) : proc Matcher :=
  try_proc
    (lift (import_quickumls env) ;;;
     (if negb (path_exists env index_path) then
        print (json_dumps None
                 (error_json ("QuickUMLS index not found at " ++ index_path))) ;;;
        sys_exit 1
      else pure tt) ;;;
     matcher <- lift (QuickUMLS env index_path threshold 5) ;;
     pure matcher)
    (fun e =>
       print (json_dumps None
                (error_json ("QuickUMLS initialization failed: " ++ exn_str e))) ;;;
       sys_exit 1).

(** Lines 48-66: one candidate to one record. *)
Definition normalize (c : concept) : result match_record :=
  let cui := get c "cui" (PyStr "") in
  let preferred := get c "preferred" (PyStr "") in
  let preferred_name :=
    if is_int_or_float preferred
    then get c "term" (PyStr (py_str preferred))
    else PyStr (py_str preferred) in
  let similarity := get c "similarity" (PyFloat (S754_zero false)) in
  bind (py_list (get c "semtypes" (PyList []))) (fun semtypes =>
  ret {| cui := cui;
         preferred_name := preferred_name;
         similarity := similarity;
         semtypes := semtypes;
         method := "quickumls" |}).

(** Lines 43-70: the body of the [try]. *)
Definition query_body (matcher : Matcher) (term : string)
  : result (list match_record) :=
  bind (match_ matcher term true false) (fun matches =>
  bind (for_each matches
          (fun group results =>
             for_each group
               (fun concept results =>
                  bind (normalize concept) (fun r => ret (results ++ [r])%list))
               results)
          []) (fun results =>
  bind (sort_reverse similarity results) (fun results =>
  ret (firstn 3 results)))).

Definition query_quickumls (matcher : Matcher) (term : string) : list entry :=
  try_except
    (bind (query_body matcher term) (fun results => ret (List.map Found results)))
    (fun e => [Failed ("QuickUMLS query failed: " ++ exn_str e)]).

Definition batch_query_quickumls (matcher : Matcher) (terms : list string)
  : batch :=
  try_except
    (bind (for_each terms
             (fun term batch_results =>
                let results := query_quickumls matcher term in
                ret (dict_set batch_results term results))
             [])
          (fun batch_results => ret (Results batch_results)))
    (fun e => BatchFailed ("Batch QuickUMLS query failed: " ++ exn_str e)).

Definition entry_json (r : entry) : json :=
  match r with
  | Found r =>
      JObj [("cui", to_json (cui r));
            ("preferred_name", to_json (preferred_name r));
            ("similarity", to_json (similarity r));
            ("semtypes", JArr (List.map JStr (semtypes r)));
            ("method", JStr (method r))]
  | Failed error => error_json error
  end.

Definition results_json (results : list entry) : json :=
  JArr (List.map entry_json results).

Definition batch_json (b : batch) : json :=
  match b with
  | Results d => JObj (List.map (fun kv => (fst kv, results_json (snd kv))) d)
  | BatchFailed error => error_json error
  end.

(** Truth of an optional [str] or list argument: given and not empty. *)
Definition given_str (a : option string) : option string :=
  match a with
  | Some s => if String.eqb s "" then None else Some s
  | None => None
  end.

Definition given_list (a : option (list string)) : option (list string) :=
  match a with
  | Some [] => None
  | other => other
  end.

(** Line 106: [[line.strip() for line in f if line.strip()]] *)
Definition read_terms (text : string) : list string :=
  flat_map
    (fun line => if String.eqb (strip line) "" then [] else [strip line])
    (readlines text).

(** Lines 122-127: the [simple] output of one result. *)
Definition print_simple (result : entry) : proc unit :=
  match result with
  | Failed _ => pure tt
  | Found r =>
      print ("CUI: " ++ py_str (cui r)) ;;;
      print ("Preferred: " ++ py_str (preferred_name r)) ;;;
      s <- lift (format_3f (similarity r)) ;;
      print ("Similarity: " ++ s) ;;;
      print "---"
  end.

Definition main (env : Env) (args : Args) : proc unit :=
  matcher <- initialize_quickumls env ;;
  match given_str (batch_file args) with
  | Some path =>
      text <- lift (open_read env path) ;;
      let terms := read_terms text in
      let batch_results := batch_query_quickumls matcher terms in
      print (json_dumps (Some 2%nat) (batch_json batch_results))
  | None =>
      match given_list (batch_terms args) with
      | Some terms =>
          let batch_results := batch_query_quickumls matcher terms in
          print (json_dumps (Some 2%nat) (batch_json batch_results))
      | None =>
          match given_str (term args) with
          | Some t =>
              let results := query_quickumls matcher t in
              match output args with
              | json_format =>
                  print (json_dumps (Some 2%nat) (results_json results))
              | simple_format => for_proc results print_simple
              end
          | None =>
              print "Error: Must provide either --term, --batch-file, or --batch-terms" ;;;
              sys_exit 1
          end
      end
  end.

(* ================================================================= *)
(** ** Vocabulary of the properties *)

(** The candidates of all groups, in the order the loops visit them. *)
Definition candidates (matches : list (list concept)) : list concept :=
  List.concat matches.

(** The records of the candidates, in order, up to the first candidate
    that makes [normalize] raise. *)
Fixpoint normalize_each (cs : list concept) : result (list match_record) :=
  match cs with
  | [] => ret []
  | c :: cs' =>
      bind (normalize c) (fun r =>
      bind (normalize_each cs') (fun rs => ret (r :: rs)))
  end.

(** A number that takes part in the order of the reals: no NaN. *)
Definition ordered_number (v : pyval) : bool :=
  match number_of v with
  | Some NaN | None => false
  | Some _ => true
  end.

(** The score of a candidate: its [similarity], [0.0] when it has none. *)
Definition score (c : concept) : pyval :=
  get c "similarity" (PyFloat (S754_zero false)).

(** The matcher scores every candidate it returns for [term] with such a
    number, as the data model has it (a score in [[0,1]]). *)
Definition scores_ordered (matcher : Matcher) (term : string) : Prop :=
  forall matches,
    match_ matcher term true false = inr matches ->
    Forall (fun c => ordered_number (score c) = true) (candidates matches).

(** [x >= y] on the numbers that are ordered. *)
Definition num_ge (x y : number) : bool :=
  match x, y with
  | NaN, _ | _, NaN => false
  | _, _ => negb (num_lt x y)
  end.

Definition value_ge (a b : pyval) : bool :=
  match number_of a, number_of b with
  | Some x, Some y => num_ge x y
  | _, _ => false
  end.

(** [a] comes with a key that is at least the key of [b]. *)
Definition key_ge {A} (key : A -> pyval) (a b : A) : Prop :=
  value_ge (key a) (key b) = true.

(** The first entry is a candidate that scores at least what the second
    one does. *)
Definition similarity_ge (a b : entry) : Prop :=
  match a, b with
  | Found r, Found r' => value_ge (similarity r) (similarity r') = true
  | _, _ => False
  end.

(** How the preferred name is resolved (lines 50-55), in the words of the
    specification: the [term] of the library for a numeric [preferred],
    the number as text when there is no [term], the text of [preferred]
    otherwise. *)
Definition resolved_name (c : concept) : pyval :=
  let preferred := get c "preferred" (PyStr "") in
  if is_int_or_float preferred then
    match dict_get c "term" with
    | Some t => t
    | None => PyStr (py_str preferred)
    end
  else PyStr (py_str preferred).

Definition is_finite (f : spec_float) : bool :=
  match f with
  | S754_zero _ | S754_finite _ _ _ => true
  | _ => false
  end.

(** A score that [.3f] can write with digits: a finite [float], or an
    [int] that converts to one. *)
Definition finite_number (v : pyval) : bool :=
  match v with
  | PyFloat f => is_finite f
  | PyInt z =>
      match int_to_float z with
      | inr f => is_finite f
      | inl _ => false
      end
  | PyBool _ => true
  | _ => false
  end.

(** Text of the shape [-?[0-9]+\.[0-9][0-9][0-9]]. *)
Definition is_fixed3 (s : string) : bool :=
  let body :=
    match s with
    | String c s' => if Ascii.eqb c "-" then s' else s
    | EmptyString => s
    end in
  match List.rev (chars body) with
  | d3 :: d2 :: d1 :: dot :: int_part =>
      is_digit d1 && is_digit d2 && is_digit d3 && Ascii.eqb dot "."
      && forallb is_digit int_part && negb (Nat.eqb (List.length int_part) 0)
  | _ => false
  end.

(** The lines of the [simple] output for one entry: none for an error
    entry, three labelled lines and a separator for a candidate (only the
    first two when [.3f] refuses its score). *)
Definition simple_block (result : entry) : list string :=
  match result with
  | Failed _ => []
  | Found r =>
      match format_3f (similarity r) with
      | inr s =>
          ["CUI: " ++ py_str (cui r);
           "Preferred: " ++ py_str (preferred_name r);
           "Similarity: " ++ s;
           "---"]
      | inl _ =>
          ["CUI: " ++ py_str (cui r);
           "Preferred: " ++ py_str (preferred_name r)]
      end
  end.

(** An error entry, or a candidate with a score that [.3f] can write. *)
Definition printable (result : entry) : bool :=
  match result with
  | Failed _ => true
  | Found r => finite_number (similarity r)
  end.

(** Initialization goes through and yields [matcher]. *)
Definition init_ok (env : Env) (matcher : Matcher) : Prop :=
  import_quickumls env = inr tt
  /\ path_exists env index_path = true
  /\ QuickUMLS env index_path threshold 5 = inr matcher.

(** The arguments select the single-term mode, for [t]. *)
Definition single_term_mode (args : Args) (t : string) : Prop :=
  given_str (batch_file args) = None
  /\ given_list (batch_terms args) = None
  /\ given_str (term args) = Some t.

(** Lines blank after trimming dropped, the others trimmed: the words of
    the specification for the batch file. *)
Definition trimmed_nonblank_lines (text : string) : list string :=
  List.filter (fun s => negb (String.eqb s ""))
    (List.map strip (readlines text)).

(* ----------------------------------------------------------------- *)
(** *** Matchers and environments to run the model on *)

Definition float_1_0 : spec_float := S754_finite false 4503599627370496 (-52).
Definition float_0_9 : spec_float := S754_finite false 8106479329266893 (-53).
Definition float_0_85 : spec_float := S754_finite false 7656119366529843 (-53).
Definition float_0_8 : spec_float := S754_finite false 7205759403792794 (-53).

Definition candidate (cui_ term_ : string) (preferred : Z) (sim : spec_float)
  (semtypes_ : list string) : concept :=
  [("start", PyInt 0); ("end", PyInt 5); ("ngram", PyStr "fever");
   ("term", PyStr term_); ("cui", PyStr cui_); ("similarity", PyFloat sim);
   ("semtypes", PyList semtypes_); ("preferred", PyInt preferred)].

(** Four candidates for ["fever"] in two groups, none for anything else
    but ["boom"], on which the matcher raises. *)
Definition demo_matcher : Matcher :=
  {| match_ text _ _ :=
       if String.eqb text "fever" then
         ret [[candidate "C0015967" "fever" 1 float_0_8 ["T184"];
               candidate "C0424755" "fever symptoms" 0 float_1_0 ["T033"]];
              [candidate "C0743973" "fevers" 0 float_0_85 ["T184"];
               candidate "C0015970" "fever of unknown origin" 0 float_0_9 []]]
       else if String.eqb text "boom" then raise "index is corrupt"
       else ret [] |}.

(** A matcher that answers with the options it was called with. *)
Definition options_probe : Matcher :=
  {| match_ text best_match ignore_syntax :=
       ret [[ [("cui", PyStr text);
               ("semtypes",
                PyList [if best_match then "best_match=True"
                        else "best_match=False";
                        if ignore_syntax then "ignore_syntax=True"
                        else "ignore_syntax=False"])] ]] |}.

(** Two matchers that differ only where [ignore_syntax] is off. *)
Definition strict_matcher : Matcher :=
  {| match_ text _ ignore_syntax :=
       if ignore_syntax
       then ret [[candidate "C0015967" "fever" 1 float_1_0 ["T184"]]]
       else ret [] |}.

Definition lenient_matcher : Matcher :=
  {| match_ text _ _ :=
       ret [[candidate "C0015967" "fever" 1 float_1_0 ["T184"]]] |}.

(** A matcher that finds nothing. *)
Definition silent_matcher : Matcher :=
  {| match_ _ _ _ := ret [] |}.

(** An environment where all is in place; [files] are the readable files. *)
Definition demo_env (matcher : Matcher) (files : dict string) : Env :=
  {| import_quickumls := ret tt;
     path_exists := fun _ => true;
     QuickUMLS := fun _ _ _ => ret matcher;
     open_read := fun path =>
       match dict_get files path with
       | Some text => ret text
       | None =>
           raise ("[Errno 2] No such file or directory: " ++ str_repr path)
       end |}.

(** The same without the index. *)
Definition env_without_index : Env :=
  {| import_quickumls := ret tt;
     path_exists := fun _ => false;
     QuickUMLS := fun _ _ _ => raise "unreachable";
     open_read := fun _ => raise "unreachable" |}.

Definition args_term (t : string) (fmt : output_format) : Args :=
  {| term := Some t; batch_file := None; batch_terms := None; output := fmt |}.

Definition args_batch_file (path : string) : Args :=
  {| term := None; batch_file := Some path; batch_terms := None;
     output := json_format |}.

Definition args_batch_terms (terms : list string) : Args :=
  {| term := None; batch_file := None; batch_terms := Some terms;
     output := json_format |}.

Definition args_none : Args :=
  {| term := None; batch_file := None; batch_terms := None;
     output := json_format |}.

Definition nl : string := str1 newline.

(** The file of the specification: ["fever\n\n headache \n"]. *)
Definition demo_file : string := "fever" ++ nl ++ nl ++ " headache " ++ nl.

(* ================================================================= *)
(** ** Vocabulary of the further properties *)

(** No mode is selected: no batch file, no batch terms and no term, or
    only empty ones. *)
Definition no_mode (args : Args) : Prop :=
  given_str (batch_file args) = None
  /\ given_list (batch_terms args) = None
  /\ given_str (term args) = None.

Definition usage_line : string :=
  "Error: Must provide either --term, --batch-file, or --batch-terms".

(** The exit status that the interpreter gives to the process: the code
    of [sys.exit], 0 when the script runs to its end, and 1 when an
    exception is caught by nobody. *)
Definition exit_status (s : status) : Z :=
  match s with
  | Exited code => code
  | Traceback _ => 1
  end.

(** The similarity of the record is the same number as [v]. *)
Definition same_score (v : pyval) (r : match_record) : bool :=
  value_ge (similarity r) v && value_ge v (similarity r).

(** A candidate with none of the keys that the lookup reads. *)
Definition bare_candidate : concept := [("ngram", PyStr "fever")].

(** Candidates for ["tie"]: three with the same score between a better
    and a worse one; for ["null"]: one or two without a usable score. *)
Definition tie_matcher : Matcher :=
  {| match_ text _ _ :=
       if String.eqb text "tie" then
         ret [[candidate "C1" "a" 1 float_0_8 [];
               candidate "C2" "b" 1 float_0_9 [];
               candidate "C3" "c" 1 float_0_8 []];
              [candidate "C4" "d" 1 float_0_8 [];
               candidate "C5" "e" 1 float_0_85 []]]
       else if String.eqb text "null" then
         ret [[ [("cui", PyStr "C1"); ("similarity", PyNone)];
                candidate "C2" "b" 1 float_0_9 [] ]]
       else if String.eqb text "text" then
         ret [[ [("cui", PyStr "C1"); ("similarity", PyStr "high")] ]]
       else ret [] |}.

(** Four candidates for every text, best first. *)
Definition ranked_matcher : Matcher :=
  {| match_ _ _ _ :=
       ret [[candidate "C1" "a" 1 float_1_0 ["T184"];
             candidate "C2" "b" 0 float_0_9 []];
            [candidate "C3" "c" 0 float_0_9 ["T033"];
             candidate "C4" "d" 0 float_0_8 []]] |}.

(** The keys of a dictionary, in its order. *)
Definition keys {V} (d : dict V) : list string := List.map fst d.

(** The text begins, or ends, with a character that [strip] removes. *)
Definition starts_with_space (s : string) : bool :=
  match s with
  | String c _ => isspace c
  | EmptyString => false
  end.

Definition ends_with_space (s : string) : bool :=
  starts_with_space (rev_str s).

Definition carriage_return : ascii := chr 13.

(* ================================================================= *)
(** ** The environment provisioner: [utilities/install_quickumls.py]

    The script runs a fixed plan of commands on the host and reports.
    The host answers each command: every command of the plan differs from
    the others, is run at most once, and always after the same commands,
    so the answer of the host is a function of the command.  Besides
    what is printed, the model keeps the commands that were run and the
    temporary files that were created, written in full and removed.

    The marks that the script prints lie outside the code points of the
    model of [str]; they stand here as the bytes that UTF-8 gives them. *)

Module Installer.

(** The first argument of [subprocess.run]: a line for the shell, or a
    list of arguments. *)
Inductive command : Type :=
| Shell (line : string)
| Argv (argv : list string).

(** What [subprocess.run(..., capture_output=True, text=True, check=True)]
    does: it returns when the command exits with 0, raises
    [CalledProcessError] when it exits with another code, and raises
    something else when the command cannot be run at all. *)
Inductive run_result : Type :=
| Completed (stdout stderr : string)
| CalledProcessError (returncode : Z) (stdout stderr : string)
| OtherError (e : exception).

(** The [CompletedProcess] that [run_command] returns. *)
Record completed_process : Type := {
  cp_stdout : string;
  cp_stderr : string
}.

Record Host : Type := {
  sys_version : string;
  sys_executable : string;
  cwd : string;                              (* [os.getcwd()] *)
  venv_exists : bool;                        (* [os.path.exists(venv_path)] *)
  subprocess_run : command -> run_result;
  mkstemp : result string;                   (* [NamedTemporaryFile(...)]: the
                                                name of the file it creates *)
  write_close : string -> string -> result unit;
                                             (* [f.write(text)] and the close
                                                at the end of the [with] *)
  unlink : string -> result unit             (* [os.unlink] *)
}.

Record machine : Type := {
  printed : list string;                     (* one text per [print] *)
  executed : list command;                   (* in the order they were run *)
  created : list string;                     (* temporary files created *)
  written : list (string * string);          (* those written in full and
                                                closed, and their text *)
  removed : list string                      (* files unlinked *)
}.

Definition start : machine :=
  {| printed := []; executed := []; created := []; written := [];
     removed := [] |}.

Definition step (A : Type) : Type := machine -> outcome A * machine.

Definition done {A} (a : A) : step A := fun m => (Return a, m).

Definition and_then {A B} (c : step A) (k : A -> step B) : step B :=
  fun m =>
    match c m with
    | (Return a, m') => k a m'
    | (Raise e, m') => (Raise e, m')
    | (Exit code, m') => (Exit code, m')
    end.

Notation "x <~ c ;; k" := (and_then c (fun x => k))
  (at level 61, c at next level, right associativity).
Notation "c >>> k" := (and_then c (fun _ => k))
  (at level 61, right associativity).

Definition say (s : string) : step unit :=
  fun m =>
    (Return tt,
     {| printed := (printed m ++ [s])%list; executed := executed m;
        created := created m; written := written m; removed := removed m |}).

Definition say_if_any (label text : string) : step unit :=
  if String.eqb text "" then done tt else say label >>> say text.

(** [subprocess.run(cmd, ...)] *)
Definition run_subprocess (host : Host) (cmd : command) : step run_result :=
  fun m =>
    (Return (subprocess_run host cmd),
     {| printed := printed m; executed := (executed m ++ [cmd])%list;
        created := created m; written := written m; removed := removed m |}).

Definition exit_with {A} (code : Z) : step A := fun m => (Exit code, m).

Definition throw {A} (e : exception) : step A := fun m => (Raise e, m).

Fixpoint for_step {A} (l : list A) (body : A -> step unit) : step unit :=
  match l with
  | [] => done tt
  | x :: l' => body x >>> for_step l' body
  end.

(** [try: body  finally: cleanup].  The cleanup runs however the body
    ends; an exception of the cleanup takes the place of that ending. *)
Definition try_finally {A} (body : step A) (cleanup : step unit) : step A :=
  fun m =>
    match body m with
    | (ending, m') =>
        match cleanup m' with
        | (Return _, m'') => (ending, m'')
        | (Raise e, m'') => (Raise e, m'')
        | (Exit code, m'') => (Exit code, m'')
        end
    end.

Definition check_mark : string :=
  String (chr 226) (String (chr 156) (str1 (chr 147))).
Definition cross_mark : string :=
  String (chr 226) (String (chr 156) (str1 (chr 151))).

Definition rule : string := repeat_str "=" 60.

(** [' '.join(cmd) if isinstance(cmd, list) else cmd] *)
Definition command_text (cmd : command) : string :=
  match cmd with
  | Shell line => line
  | Argv argv => join " " argv
  end.

(** Lines 13-38.  [None] is the answer for a command that failed. *)
Definition run_command (host : Host) (cmd : command) (description : string)
  : step (option completed_process) :=
  say (nl ++ rule) >>>
  say ("Running: " ++ description) >>>
  say ("Command: " ++ command_text cmd) >>>
  say rule >>>
  r <~ run_subprocess host cmd ;;
  match r with
  | Completed stdout stderr =>
      say_if_any "STDOUT:" stdout >>>
      say_if_any "STDERR:" stderr >>>
      say (check_mark ++ " " ++ description ++ " completed successfully") >>>
      done (Some {| cp_stdout := stdout; cp_stderr := stderr |})
  | CalledProcessError returncode stdout stderr =>
      say (cross_mark ++ " " ++ description ++ " failed with exit code "
           ++ int_str returncode) >>>
      say_if_any "STDOUT:" stdout >>>
      say_if_any "STDERR:" stderr >>>
      done None
  | OtherError e => throw e
  end.

Definition venv_path : string :=
  "/oscar/home/isarkar/sarkarcode/thera-ie/quickumls_venv".

Definition venv_python : string := venv_path ++ "/bin/python".
Definition venv_pip : string := venv_path ++ "/bin/pip".

Definition dependencies : list string :=
  ["wheel"; "setuptools"; "numpy"; "scipy"; "scikit-learn"; "nltk"; "spacy";
   "unidecode"; "leveldb"].

Definition q (s : string) : string := str1 dquote ++ s ++ str1 dquote.

(** The text of the import test (lines 94-111). *)
Definition test_script : string :=
  join nl
    ["";
     "import sys";
     "sys.path.insert(0, '" ++ venv_path ++ "/lib/python3.11/site-packages')";
     "";
     "try:";
     "    from quickumls import QuickUMLS";
     "    print(" ++ q (check_mark ++ " QuickUMLS imported successfully") ++ ")";
     "    ";
     "    # Try basic functionality test";
     "    print(" ++ q (check_mark ++ " QuickUMLS installation appears successful")
       ++ ")";
     "    ";
     "except ImportError as e:";
     "    print(f" ++ q (cross_mark ++ " QuickUMLS import failed: {e}") ++ ")";
     "    sys.exit(1)";
     "except Exception as e:";
     "    print(f" ++ q (cross_mark ++ " QuickUMLS test failed: {e}") ++ ")";
     "    sys.exit(1)";
     ""].

(** The commands of the plan. *)
Definition remove_venv : command := Shell ("rm -rf " ++ venv_path).
Definition create_venv (host : Host) : command :=
  Argv [sys_executable host; "-m"; "venv"; venv_path].
Definition upgrade_pip : command := Argv [venv_pip; "install"; "--upgrade"; "pip"].
Definition install_package (package : string) : command :=
  Argv [venv_pip; "install"; package].
Definition run_test (test_file : string) : command :=
  Argv [venv_python; test_file].

(** [tempfile.NamedTemporaryFile(mode='w', suffix='.py', delete=False)]:
    the file is on the disk when the call returns, and stays there when it
    is closed. *)
Definition create_temp (host : Host) : step string :=
  fun m =>
    match mkstemp host with
    | inl e => (Raise e, m)
    | inr name =>
        (Return name,
         {| printed := printed m; executed := executed m;
            created := (created m ++ [name])%list;
            written := written m; removed := removed m |})
    end.

(** [f.write(text)] and the close of the file at the end of the [with].
    The text is buffered, so that an error of the disk shows at either of
    the two; both come before the [try] of line 117. *)
Definition write_text (host : Host) (name text : string) : step unit :=
  fun m =>
    match write_close host name text with
    | inl e => (Raise e, m)
    | inr _ =>
        (Return tt,
         {| printed := printed m; executed := executed m;
            created := created m;
            written := (written m ++ [(name, text)])%list;
            removed := removed m |})
    end.

(** Lines 113-115:
    [with tempfile.NamedTemporaryFile(...) as f: f.write(text); name = f.name]. *)
Definition write_temp (host : Host) (text : string) : step string :=
  name <~ create_temp host ;;
  write_text host name text >>>
  done name.

(** [os.unlink(path)] *)
Definition os_unlink (host : Host) (path : string) : step unit :=
  fun m =>
    match unlink host path with
    | inl e => (Raise e, m)
    | inr _ =>
        (Return tt,
         {| printed := printed m; executed := executed m;
            created := created m; written := written m;
            removed := (removed m ++ [path])%list |})
    end.

(** Lines 82-85: the body of the loop over the dependencies. *)
Definition install_dependency (host : Host) (dep : string) : step unit :=
  result <~ run_command host (install_package dep) ("Install " ++ dep) ;;
  match result with
  | None => say ("Warning: Failed to install " ++ dep ++ ", continuing...")
  | Some _ => done tt
  end.

(** Lines 40-131. *)
Definition main (host : Host) : step bool :=
  say "=== QuickUMLS Clean Installation ===" >>>
  say ("Python version: " ++ sys_version host) >>>
  say ("Python executable: " ++ sys_executable host) >>>
  say ("Working directory: " ++ cwd host) >>>
  say (nl ++ "1. Creating virtual environment at: " ++ venv_path) >>>
  (if venv_exists host then
     say "Removing existing virtual environment..." >>>
     run_command host remove_venv "Remove existing venv" >>>
     done tt
   else done tt) >>>
  result <~ run_command host (create_venv host) "Create virtual environment" ;;
  match result with
  | None => say "Failed to create virtual environment" >>> done false
  | Some _ =>
  say (nl ++ "2. Upgrading pip in virtual environment") >>>
  result <~ run_command host upgrade_pip "Upgrade pip" ;;
  match result with
  | None => say "Failed to upgrade pip" >>> done false
  | Some _ =>
  say (nl ++ "3. Installing required dependencies") >>>
  for_step dependencies (install_dependency host) >>>
  say (nl ++ "4. Installing QuickUMLS") >>>
  result <~ run_command host (install_package "quickumls") "Install QuickUMLS" ;;
  match result with
  | None => say "Failed to install QuickUMLS" >>> done false
  | Some _ =>
  say (nl ++ "5. Testing QuickUMLS import") >>>
  test_file <~ write_temp host test_script ;;
  try_finally
    (result <~ run_command host (run_test test_file) "Test QuickUMLS import" ;;
     match result with
     | Some _ =>
         say (nl ++ rule) >>>
         say (check_mark ++ " QuickUMLS installation completed successfully!") >>>
         say ("Virtual environment: " ++ venv_path) >>>
         say ("Python executable: " ++ venv_python) >>>
         say ("To use: source " ++ venv_path ++ "/bin/activate") >>>
         say rule >>>
         done true
     | None =>
         say (cross_mark ++ " QuickUMLS installation test failed") >>>
         done false
     end)
    (os_unlink host test_file)
  end end end.

(** Lines 133-135: [success = main(); sys.exit(0 if success else 1)] *)
Definition script (host : Host) : step unit :=
  success <~ main host ;;
  exit_with (if success then 0 else 1).

(** The run of the script on a host: how it ends, and the machine then. *)
Definition install (host : Host) : status * machine :=
  match script host start with
  | (Return _, m) => (Exited 0, m)
  | (Exit code, m) => (Exited code, m)
  | (Raise e, m) => (Traceback e, m)
  end.

(** What lines 113-115 bind [test_file] to, or the exception they end
    with: the name of the temporary file when it could be created, written
    and closed. *)
Definition temp_name (host : Host) : result string :=
  match mkstemp host with
  | inl e => inl e
  | inr name =>
      match write_close host name test_script with
      | inl e => inl e
      | inr _ => inr name
      end
  end.

(** The command exits with 0 on the host. *)
Definition completes (host : Host) (cmd : command) : bool :=
  match subprocess_run host cmd with
  | Completed _ _ => true
  | _ => false
  end.

(** The command can be run on the host, whatever its exit code. *)
Definition runs (host : Host) (cmd : command) : bool :=
  match subprocess_run host cmd with
  | OtherError _ => false
  | _ => true
  end.

(** The commands up to the test, for a host that runs them all. *)
Definition preparation (host : Host) : list command :=
  ((if venv_exists host then [remove_venv] else [])
   ++ [create_venv host; upgrade_pip]
   ++ List.map install_package dependencies
   ++ [install_package "quickumls"])%list.

(** A host where every command exits with 0, but those in [failing]. *)
Definition demo_host (existing : bool) (failing : list string) : Host :=
  {| sys_version := "3.11.2 (main)";
     sys_executable := "/usr/bin/python3";
     cwd := "/home/user";
     venv_exists := existing;
     subprocess_run := fun cmd =>
       if existsb (String.eqb (command_text cmd)) failing
       then CalledProcessError 1 "" "error"
       else Completed "ok" "";
     mkstemp := ret "/tmp/tmpabc.py";
     write_close := fun _ _ => ret tt;
     unlink := fun _ => ret tt |}.

(** A host without [pip]: the environment is created, and nothing else
    can be run. *)
Definition host_without_pip : Host :=
  {| sys_version := "3.11.2 (main)";
     sys_executable := "/usr/bin/python3";
     cwd := "/home/user";
     venv_exists := false;
     subprocess_run := fun cmd =>
       match cmd with
       | Argv ["/usr/bin/python3"; "-m"; "venv"; _] => Completed "" ""
       | _ => OtherError (Exception "[Errno 2] No such file or directory")
       end;
     mkstemp := ret "/tmp/tmpabc.py";
     write_close := fun _ _ => ret tt;
     unlink := fun _ => ret tt |}.

(** A host where every command exits with 0 and the disk is full: the
    temporary file is created, and cannot be written. *)
Definition host_with_full_disk : Host :=
  {| sys_version := "3.11.2 (main)";
     sys_executable := "/usr/bin/python3";
     cwd := "/home/user";
     venv_exists := false;
     subprocess_run := fun _ => Completed "ok" "";
     mkstemp := ret "/tmp/tmpabc.py";
     write_close := fun _ _ => raise "[Errno 28] No space left on device";
     unlink := fun _ => ret tt |}.

(** A host where every command exits with 0 and no file can be removed. *)
Definition host_that_keeps_files : Host :=
  {| sys_version := "3.11.2 (main)";
     sys_executable := "/usr/bin/python3";
     cwd := "/home/user";
     venv_exists := false;
     subprocess_run := fun _ => Completed "ok" "";
     mkstemp := ret "/tmp/tmpabc.py";
     write_close := fun _ _ => ret tt;
     unlink := fun path =>
       raise ("[Errno 13] Permission denied: " ++ str_repr path) |}.

(** What a step leaves behind, apart from what it prints. *)
Definition effects (m : machine)
  : list command * list string * list (string * string) * list string :=
  (executed m, created m, written m, removed m).

(** The step, started on [m], ends as [Q] says: [Q] speaks of the
    outcome, of the commands run so far, and of the temporary files
    created, written and removed so far. *)
Definition ends {A} (c : step A) (m : machine)
  (Q : outcome A -> list command -> list string -> list (string * string)
       -> list string -> Prop) : Prop :=
  Q (fst (c m)) (executed (snd (c m))) (created (snd (c m)))
    (written (snd (c m))) (removed (snd (c m))).

(** How a process ends on an outcome of the script. *)
Definition status_of {A} (o : outcome A) : status :=
  match o with
  | Return _ => Exited 0
  | Exit code => Exited code
  | Raise e => Traceback e
  end.

End Installer.

(* ================================================================= *)
(** ** Loops and the sort *)

Section Loops.
Context {A S : Type}.
Variable body : A -> S -> result S.

Lemma for_each_app (l1 l2 : list A) (s : S) :
  for_each (l1 ++ l2)%list body s = bind (for_each l1 body s) (for_each l2 body).
Proof.
  revert s; induction l1 as [|x l1 IH]; intros s; simpl; [reflexivity|].
  destruct (body x s) as [e|s']; simpl; [reflexivity|apply IH].
Qed.

(** Two nested loops visit the concatenation. *)
Lemma for_each_concat (ls : list (list A)) (s : S) :
  for_each ls (fun g s' => for_each g body s') s
  = for_each (List.concat ls) body s.
Proof.
  revert s; induction ls as [|g ls IH]; intros s; simpl; [reflexivity|].
  rewrite for_each_app.
  destruct (for_each g body s) as [e|s']; simpl; [reflexivity|apply IH].
Qed.
End Loops.

Lemma append_loop (cs : list concept) (acc : list match_record) :
  for_each cs
    (fun concept results =>
       bind (normalize concept) (fun r => ret (results ++ [r])%list)) acc
  = bind (normalize_each cs) (fun rs => ret (acc ++ rs)%list).
Proof.
  revert acc; induction cs as [|c cs IH]; intros acc; simpl.
  - unfold ret; now rewrite app_nil_r.
  - destruct (normalize c) as [e|r]; simpl; [reflexivity|].
    rewrite IH. destruct (normalize_each cs) as [e|rs]; simpl; [reflexivity|].
    unfold ret; now rewrite <- app_assoc.
Qed.

(** The body of the [try], step by step. *)
Lemma query_body_eq (matcher : Matcher) (term : string) :
  query_body matcher term
  = bind (match_ matcher term true false) (fun matches =>
    bind (normalize_each (candidates matches)) (fun results =>
    bind (sort_reverse similarity results) (fun results =>
    ret (firstn 3 results)))).
Proof.
  unfold query_body.
  destruct (match_ matcher term true false) as [e|matches]; simpl; [reflexivity|].
  rewrite (for_each_concat
             (fun concept results =>
                bind (normalize concept) (fun r => ret (results ++ [r])%list))).
  rewrite append_loop. fold (candidates matches).
  destruct (normalize_each (candidates matches)); reflexivity.
Qed.

Lemma query_raised (matcher : Matcher) (term : string) (e : exception) :
  query_body matcher term = inl e ->
  query_quickumls matcher term
  = [Failed ("QuickUMLS query failed: " ++ exn_str e)].
Proof. unfold query_quickumls; intros ->; reflexivity. Qed.

Lemma query_returned (matcher : Matcher) (term : string) rs :
  query_body matcher term = inr rs ->
  query_quickumls matcher term = List.map Found rs.
Proof. unfold query_quickumls; intros ->; reflexivity. Qed.

Lemma normalize_fields (c : concept) (r : match_record) :
  normalize c = inr r ->
  cui r = get c "cui" (PyStr "")
  /\ preferred_name r = resolved_name c
  /\ similarity r = score c
  /\ py_list (get c "semtypes" (PyList [])) = inr (semtypes r)
  /\ method r = "quickumls".
Proof.
  unfold normalize.
  destruct (py_list _) as [e|st]; simpl; [discriminate|].
  intros [= <-]; simpl. repeat split.
Qed.

Lemma normalize_each_scores (cs : list concept) (rs : list match_record) :
  normalize_each cs = inr rs ->
  List.map similarity rs = List.map score cs.
Proof.
  revert rs; induction cs as [|c cs IH]; simpl; intros rs.
  - now intros [= <-].
  - destruct (normalize c) as [e|r] eqn:Hc; simpl; [discriminate|].
    destruct (normalize_each cs) as [e|rs']; simpl; [discriminate|].
    intros [= <-]; simpl. f_equal; [|now apply IH].
    now apply normalize_fields in Hc.
Qed.

(* ----------------------------------------------------------------- *)
(** *** The order of the numbers *)

Lemma num_ge_of_lt (x y : number) :
  num_lt y x = true -> num_ge x y = true.
Proof.
  destruct x as [| |p|], y as [| |q|]; simpl; try discriminate; try reflexivity.
  unfold Qltb; rewrite !negb_true_iff, negb_false_iff.
  intros H. apply Qle_bool_iff, Qlt_le_weak, Qnot_le_lt.
  intros Hle; apply Qle_bool_iff in Hle; congruence.
Qed.

Lemma num_ge_of_not_lt (x y : number) :
  x <> NaN -> y <> NaN -> num_lt y x = false -> num_ge y x = true.
Proof.
  destruct x as [| |p|], y as [| |q|]; simpl; try congruence.
  now intros _ _ ->.
Qed.

Lemma num_ge_trans (x y z : number) :
  num_ge x y = true -> num_ge y z = true -> num_ge x z = true.
Proof.
  destruct x as [| |p|], y as [| |q|], z as [| |r|]; simpl;
    try discriminate; try reflexivity.
  unfold Qltb; rewrite !negb_involutive.
  intros H1 H2. apply Qle_bool_iff in H1, H2. apply Qle_bool_iff.
  eapply Qle_trans; eassumption.
Qed.

Lemma ordered_number_value (v : pyval) :
  ordered_number v = true -> exists x, number_of v = Some x /\ x <> NaN.
Proof.
  unfold ordered_number. destruct (number_of v) as [[| |q|]|]; try discriminate;
    intros _; eexists; (split; [reflexivity|discriminate]).
Qed.

Lemma py_lt_numbers (a b : pyval) x y :
  number_of a = Some x -> number_of b = Some y ->
  py_lt a b = inr (num_lt x y).
Proof. unfold py_lt; intros -> ->; reflexivity. Qed.

Lemma value_ge_trans (a b c : pyval) :
  value_ge a b = true -> value_ge b c = true -> value_ge a c = true.
Proof.
  unfold value_ge.
  destruct (number_of a), (number_of b), (number_of c); try discriminate.
  apply num_ge_trans.
Qed.

(* ----------------------------------------------------------------- *)
(** *** [sort_reverse] *)

Section Sort.
Context {A : Type}.
Variable key : A -> pyval.

Let ordered (a : A) : Prop := ordered_number (key a) = true.

Lemma insert_desc_perm (x : A) (l l' : list A) :
  insert_desc key x l = inr l' -> Permutation l' (x :: l).
Proof.
  revert l'; induction l as [|y l IH]; simpl; intros l'.
  - intros [= <-]; apply Permutation_refl.
  - destruct (py_lt (key y) (key x)) as [e|[|]]; simpl; [discriminate| |].
    + intros [= <-]; apply Permutation_refl.
    + destruct (insert_desc key x l) as [e|r]; simpl; [discriminate|].
      intros [= <-]. eapply perm_trans; [|apply perm_swap].
      apply perm_skip, IH; reflexivity.
Qed.

Lemma sort_loop_perm (l acc l' : list A) :
  for_each l (insert_desc key) acc = inr l' -> Permutation l' (l ++ acc).
Proof.
  revert acc; induction l as [|x l IH]; simpl; intros acc.
  - intros [= <-]; apply Permutation_refl.
  - destruct (insert_desc key x acc) as [e|acc'] eqn:Hx; simpl; [discriminate|].
    intros H. apply IH in H. apply insert_desc_perm in Hx.
    eapply perm_trans; [exact H|].
    eapply perm_trans; [apply Permutation_app_head; exact Hx|].
    apply Permutation_sym, Permutation_middle.
Qed.

(** The sort returns the elements it was given. *)
Lemma sort_reverse_perm (l l' : list A) :
  sort_reverse key l = inr l' -> Permutation l' l.
Proof.
  unfold sort_reverse; intros H. apply sort_loop_perm in H.
  now rewrite app_nil_r in H.
Qed.

Lemma insert_desc_sorted (x : A) (l l' : list A) :
  ordered x -> Forall ordered l ->
  StronglySorted (key_ge key) l ->
  insert_desc key x l = inr l' ->
  StronglySorted (key_ge key) l'.
Proof.
  intros Hx. revert l'; induction l as [|y l IH]; simpl; intros l' Hl Hs.
  - intros [= <-]. constructor; constructor.
  - inversion Hl as [|? ? Hy Hl']; subst.
    inversion Hs as [|? ? Hs' Hall]; subst.
    destruct (ordered_number_value _ Hx) as (vx & Ex & Nx).
    destruct (ordered_number_value _ Hy) as (vy & Ey & Ny).
    rewrite (py_lt_numbers _ _ _ _ Ey Ex); simpl.
    destruct (num_lt vy vx) eqn:Hlt.
    + intros [= <-]. constructor; [exact Hs|].
      assert (key_ge key x y) as Hxy.
      { unfold key_ge, value_ge; rewrite Ex, Ey. now apply num_ge_of_lt. }
      constructor; [exact Hxy|].
      eapply Forall_impl; [|exact Hall].
      intros z Hz. unfold key_ge in *. eapply value_ge_trans; eassumption.
    + destruct (insert_desc key x l) as [e|r] eqn:Hr; simpl; [discriminate|].
      intros [= <-]. constructor; [now apply IH|].
      apply insert_desc_perm in Hr.
      eapply Permutation_Forall; [apply Permutation_sym; exact Hr|].
      constructor; [|exact Hall].
      unfold key_ge, value_ge; rewrite Ex, Ey. now apply num_ge_of_not_lt.
Qed.

Lemma insert_desc_returns (x : A) (l : list A) :
  ordered x -> Forall ordered l -> exists l', insert_desc key x l = inr l'.
Proof.
  intros Hx; induction l as [|y l IH]; simpl; intros Hl.
  - eexists; reflexivity.
  - inversion Hl as [|? ? Hy Hl']; subst.
    destruct (ordered_number_value _ Hx) as (vx & Ex & Nx).
    destruct (ordered_number_value _ Hy) as (vy & Ey & Ny).
    rewrite (py_lt_numbers _ _ _ _ Ey Ex); simpl.
    destruct (num_lt vy vx); [eexists; reflexivity|].
    destruct (IH Hl') as (r & ->); simpl. eexists; reflexivity.
Qed.

Lemma sort_loop_sorted (l acc l' : list A) :
  Forall ordered l -> Forall ordered acc ->
  StronglySorted (key_ge key) acc ->
  for_each l (insert_desc key) acc = inr l' ->
  StronglySorted (key_ge key) l'.
Proof.
  revert acc; induction l as [|x l IH]; simpl; intros acc Hl Ha Hs.
  - now intros [= <-].
  - inversion Hl as [|? ? Hx Hl']; subst.
    destruct (insert_desc key x acc) as [e|acc'] eqn:Hi; simpl; [discriminate|].
    apply IH; [exact Hl'| |exact (insert_desc_sorted x acc acc' Hx Ha Hs Hi)].
    apply insert_desc_perm in Hi.
    eapply Permutation_Forall; [apply Permutation_sym; exact Hi|].
    now constructor.
Qed.

Lemma sort_loop_returns (l acc : list A) :
  Forall ordered l -> Forall ordered acc ->
  exists l', for_each l (insert_desc key) acc = inr l'.
Proof.
  revert acc; induction l as [|x l IH]; simpl; intros acc Hl Ha.
  - eexists; reflexivity.
  - inversion Hl as [|? ? Hx Hl']; subst.
    destruct (insert_desc_returns x acc Hx Ha) as (acc' & Hi).
    rewrite Hi; simpl. apply IH; [exact Hl'|].
    apply insert_desc_perm in Hi.
    eapply Permutation_Forall; [apply Permutation_sym; exact Hi|].
    now constructor.
Qed.

(** On keys that are ordered numbers the sort returns, largest first. *)
Lemma sort_reverse_sorted (l l' : list A) :
  Forall ordered l ->
  sort_reverse key l = inr l' ->
  StronglySorted (key_ge key) l'.
Proof.
  intros Hl. apply sort_loop_sorted; [exact Hl|constructor|constructor].
Qed.

Lemma sort_reverse_returns (l : list A) :
  Forall ordered l -> exists l', sort_reverse key l = inr l'.
Proof. intros Hl; apply sort_loop_returns; [exact Hl|constructor]. Qed.
End Sort.

Lemma StronglySorted_firstn {A} (R : A -> A -> Prop) (n : nat) (l : list A) :
  StronglySorted R l -> StronglySorted R (firstn n l).
Proof.
  revert n; induction l as [|x l IH]; intros [|n] Hs; simpl;
    try constructor.
  - inversion Hs; subst. now apply IH.
  - inversion Hs as [|? ? _ Hall]; subst.
    apply Forall_forall; intros y Hy.
    rewrite Forall_forall in Hall. apply Hall.
    rewrite <- (firstn_skipn n l). apply in_or_app; now left.
Qed.

Lemma StronglySorted_found (l : list match_record) :
  StronglySorted (key_ge similarity) l ->
  StronglySorted similarity_ge (List.map Found l).
Proof.
  induction 1 as [|x l Hs IH Hall]; simpl; constructor; [exact IH|].
  apply Forall_forall; intros e He. apply in_map_iff in He as (y & <- & Hy).
  rewrite Forall_forall in Hall. exact (Hall y Hy).
Qed.

Lemma firstn_3_length {A} (l : list A) : (List.length (firstn 3 l) <= 3)%nat.
Proof. apply firstn_le_length. Qed.

(** A lookup returns at most three entries. *)
Lemma query_at_most_3 (matcher : Matcher) (term : string) :
  (List.length (query_quickumls matcher term) <= 3)%nat.
Proof.
  unfold query_quickumls. rewrite query_body_eq.
  destruct (match_ matcher term true false) as [e|matches]; cbn -[firstn]; [lia|].
  destruct (normalize_each (candidates matches)) as [e|rs]; cbn -[firstn]; [lia|].
  destruct (sort_reverse similarity rs) as [e|sorted]; cbn -[firstn]; [lia|].
  rewrite length_map. apply firstn_3_length.
Qed.

Lemma query_sorted (matcher : Matcher) (term : string) :
  scores_ordered matcher term ->
  StronglySorted similarity_ge (query_quickumls matcher term).
Proof.
  intros Hscores. unfold query_quickumls. rewrite query_body_eq.
  destruct (match_ matcher term true false) as [e|matches] eqn:Hm; cbn -[firstn];
    [repeat constructor|].
  destruct (normalize_each (candidates matches)) as [e|rs] eqn:Hn; cbn -[firstn];
    [repeat constructor|].
  destruct (sort_reverse similarity rs) as [e|sorted] eqn:Hsort; cbn -[firstn];
    [repeat constructor|].
  apply StronglySorted_found, StronglySorted_firstn.
  eapply sort_reverse_sorted; [|exact Hsort].
  specialize (Hscores _ Hm).
  apply normalize_each_scores in Hn.
  apply Forall_forall; intros r Hr.
  assert (In (similarity r) (List.map score (candidates matches))) as Hin
    by (rewrite <- Hn; now apply in_map).
  apply in_map_iff in Hin as (c & Hc & Hin). rewrite <- Hc.
  rewrite Forall_forall in Hscores. now apply Hscores.
Qed.

(* ----------------------------------------------------------------- *)
(** *** The batch *)

Lemma dict_get_set {V} (d : dict V) (k k' : string) (v : V) :
  dict_get (dict_set d k v) k'
  = if String.eqb k k' then Some v else dict_get d k'.
Proof.
  induction d as [|[k0 v0] d IH]; simpl.
  - reflexivity.
  - destruct (String.eqb k0 k) eqn:E0; simpl.
    + apply String.eqb_eq in E0; subst k0.
      destruct (String.eqb k k'); reflexivity.
    + destruct (String.eqb k0 k') eqn:E1; [|exact IH].
      apply String.eqb_eq in E1; subst k0.
      now rewrite String.eqb_sym, E0.
Qed.

Lemma batch_loop (matcher : Matcher) (terms : list string)
  (d0 : dict (list entry)) :
  exists d,
    for_each terms
      (fun term batch_results =>
         let results := query_quickumls matcher term in
         ret (dict_set batch_results term results)) d0 = inr d
    /\ forall t,
         dict_get d t
         = if in_dec string_dec t terms
           then Some (query_quickumls matcher t) else dict_get d0 t.
Proof.
  revert d0; induction terms as [|x terms IH]; intros d0.
  - exists d0; split; reflexivity.
  - destruct (IH (dict_set d0 x (query_quickumls matcher x))) as (d & Hd & Hget).
    exists d; split; [exact Hd|]. intros t. rewrite Hget, dict_get_set.
    destruct (in_dec string_dec t (x :: terms)) as [Hin|Hnin];
      destruct (in_dec string_dec t terms) as [Hin'|Hnin'];
      destruct (String.eqb_spec x t) as [->|Hne]; try reflexivity.
    + destruct Hin as [->|Hin]; [now elim Hne|now elim Hnin'].
    + elim Hnin; now left.
    + elim Hnin; now right.
    + elim Hnin; now left.
Qed.

(** The batch never fails, and maps each term to its own lookup. *)
Lemma batch_results_spec (matcher : Matcher) (terms : list string) :
  exists d,
    batch_query_quickumls matcher terms = Results d
    /\ forall t,
         dict_get d t
         = if in_dec string_dec t terms
           then Some (query_quickumls matcher t) else None.
Proof.
  destruct (batch_loop matcher terms []) as (d & Hd & Hget).
  exists d; split; [|exact Hget].
  unfold batch_query_quickumls.
  change (try_except
            (bind (for_each terms
                     (fun term batch_results =>
                        let results := query_quickumls matcher term in
                        ret (dict_set batch_results term results)) [])
                  (fun batch_results => ret (Results batch_results)))
            (fun e => BatchFailed ("Batch QuickUMLS query failed: " ++ exn_str e))
          = Results d).
  rewrite Hd. reflexivity.
Qed.

(* ================================================================= *)
(** ** Single-term lookup *)

(** C1, as the specification states it, does not hold: the lookup does not
    call the matcher with [ignore_syntax] on.  Two matchers that answer the
    same when called with [best_match=True, ignore_syntax=True] are told
    apart by the lookup of ["fever"]. *)
Lemma lookup_does_not_ignore_syntax :
  match_ strict_matcher "fever" true true
  = match_ lenient_matcher "fever" true true
  /\ query_quickumls strict_matcher "fever"
     <> query_quickumls lenient_matcher "fever".
Proof. split; [reflexivity|discriminate]. Qed.

(** C1, amended: for every term the lookup calls the [match] operation of
    the matcher with [best_match=True] and [ignore_syntax=False], that is
    with best match per span and the syntax filter left on.  The answer to
    that one call is all the lookup takes from the matcher: matchers that
    agree on it give the same result list.  A matcher that answers with
    the options it is called with sees, for every term, [best_match] on
    and [ignore_syntax] off. *)
Theorem lookup_calls_best_match_keeps_syntax (term : string) :
  (forall matcher matcher',
      match_ matcher term true false = match_ matcher' term true false ->
      query_quickumls matcher term = query_quickumls matcher' term)
  /\ List.map (fun e => match e with Found r => semtypes r | Failed _ => [] end)
       (query_quickumls options_probe term)
     = [["best_match=True"; "ignore_syntax=False"]].
Proof.
  split; [|reflexivity].
  intros matcher matcher' H. unfold query_quickumls, query_body. now rewrite H.
Qed.

Lemma lookup_calls_best_match_keeps_syntax_witness :
  match_ strict_matcher "fever" true false
  = match_ silent_matcher "fever" true false
  /\ query_quickumls strict_matcher "fever"
     = query_quickumls silent_matcher "fever".
Proof.
  split; [reflexivity|].
  apply (proj1 (lookup_calls_best_match_keeps_syntax "fever")
           strict_matcher silent_matcher).
  reflexivity.
Defined.

(** C2: for every term the result list of the lookup has at most 3
    entries and is sorted by similarity, largest first; the same holds of
    every list in the mapping of a batch, each for its own term.  The
    order is that of the scores of the data model: the sort is known to
    put them largest first when the similarity of every candidate is a
    number other than a NaN. *)
Theorem result_lists_sorted_top_3 (matcher : Matcher) :
  (forall term,
      (List.length (query_quickumls matcher term) <= 3)%nat
      /\ (scores_ordered matcher term ->
          StronglySorted similarity_ge (query_quickumls matcher term)))
  /\ (forall terms, exists d,
        batch_query_quickumls matcher terms = Results d
        /\ forall t results,
             dict_get d t = Some results ->
             (List.length results <= 3)%nat
             /\ (scores_ordered matcher t ->
                 StronglySorted similarity_ge results)).
Proof.
  split.
  - intros term; split; [apply query_at_most_3|apply query_sorted].
  - intros terms.
    destruct (batch_results_spec matcher terms) as (d & Hd & Hget).
    exists d; split; [exact Hd|]. intros t results Ht.
    rewrite Hget in Ht. destruct (in_dec string_dec t terms); [|discriminate].
    injection Ht as <-.
    split; [apply query_at_most_3|apply query_sorted].
Qed.

Lemma demo_scores_ordered : scores_ordered demo_matcher "fever".
Proof.
  intros matches H. injection H as <-. repeat constructor.
Defined.

Lemma result_lists_sorted_top_3_witness :
  scores_ordered demo_matcher "fever"
  /\ (List.length (query_quickumls demo_matcher "fever") <= 3)%nat
  /\ StronglySorted similarity_ge (query_quickumls demo_matcher "fever").
Proof.
  split; [exact demo_scores_ordered|].
  destruct (proj1 (result_lists_sorted_top_3 demo_matcher) "fever") as [Hlen Hs].
  split; [exact Hlen|exact (Hs demo_scores_ordered)].
Defined.

(** Every candidate entry of a lookup is the record of one of the
    candidates the matcher returned. *)
Lemma found_entries_from_candidates (matcher : Matcher) (term : string)
  (r : match_record) :
  In (Found r) (query_quickumls matcher term) ->
  exists matches c,
    match_ matcher term true false = inr matches
    /\ In c (candidates matches) /\ normalize c = inr r.
Proof.
  unfold query_quickumls. rewrite query_body_eq.
  destruct (match_ matcher term true false) as [e|matches]; cbn -[firstn];
    [intros [[=]|[]]|].
  destruct (normalize_each (candidates matches)) as [e|rs] eqn:Hn; cbn -[firstn];
    [intros [[=]|[]]|].
  destruct (sort_reverse similarity rs) as [e|sorted] eqn:Hs; cbn -[firstn];
    [intros [[=]|[]]|].
  intros Hin. apply in_map_iff in Hin as (r' & [= ->] & Hin).
  assert (In r rs) as Hrs.
  { eapply Permutation_in; [eapply sort_reverse_perm; exact Hs|].
    rewrite <- (firstn_skipn 3 sorted). apply in_or_app; now left. }
  exists matches. clear Hs Hin.
  assert (exists c, In c (candidates matches) /\ normalize c = inr r) as (c & H1 & H2);
    [|exists c; auto].
  revert rs Hn Hrs. generalize (candidates matches) as cs.
  induction cs as [|c cs IH]; simpl; intros rs.
  - intros [= <-] [].
  - destruct (normalize c) as [e|r0] eqn:Hc; simpl; [discriminate|].
    destruct (normalize_each cs) as [e|rs']; simpl; [discriminate|].
    intros [= <-] [->|Hin].
    + exists c; split; [now left|exact Hc].
    + destruct (IH rs' eq_refl Hin) as (c' & Hc' & Hn').
      exists c'; split; [now right|exact Hn'].
Qed.

(** C3: the preferred name of the record built for a candidate.  When its
    [preferred] is numeric the name is the [term] of the candidate, and the
    number as text when the candidate has no [term]; when [preferred] is not
    numeric (or absent, which reads as the empty text) the name is
    [preferred] as text.  A candidate gets its record whenever its
    [semtypes] can be listed, and every candidate entry that a lookup
    returns carries the name so resolved of one of the candidates that the
    matcher returned. *)
Theorem preferred_name_of_candidate :
  (forall c : concept,
      let preferred := get c "preferred" (PyStr "") in
      (forall st, py_list (get c "semtypes" (PyList [])) = inr st ->
                  exists r, normalize c = inr r)
      /\ forall r, normalize c = inr r ->
           (is_int_or_float preferred = true ->
            forall t, dict_get c "term" = Some t -> preferred_name r = t)
           /\ (is_int_or_float preferred = true ->
               dict_get c "term" = None ->
               preferred_name r = PyStr (py_str preferred))
           /\ (is_int_or_float preferred = false ->
               preferred_name r = PyStr (py_str preferred)))
  /\ (forall matcher term r,
        In (Found r) (query_quickumls matcher term) ->
        exists matches c,
          match_ matcher term true false = inr matches
          /\ In c (candidates matches)
          /\ normalize c = inr r
          /\ preferred_name r = resolved_name c).
Proof.
  split.
  - intros c preferred. split.
    + intros st Hst. unfold normalize. rewrite Hst. eexists; reflexivity.
    + intros r Hr. apply normalize_fields in Hr as (_ & Hname & _).
      rewrite Hname. unfold resolved_name. fold preferred.
      repeat split.
      * intros -> t ->. reflexivity.
      * intros -> ->. reflexivity.
      * intros ->. reflexivity.
  - intros matcher term r Hin.
    destruct (found_entries_from_candidates _ _ _ Hin) as (matches & c & Hm & Hc & Hr).
    exists matches, c. repeat split; try assumption.
    now apply normalize_fields in Hr.
Qed.

Lemma preferred_name_of_candidate_witness :
  let c := candidate "C0015967" "fever" 1 float_0_8 ["T184"] in
  exists r, normalize c = inr r /\ preferred_name r = PyStr "fever".
Proof.
  intros c.
  destruct (proj1 (proj1 preferred_name_of_candidate c) ["T184"] eq_refl)
    as (r & Hr).
  exists r; split; [exact Hr|].
  exact (proj1 (proj2 (proj1 preferred_name_of_candidate c) r Hr)
           eq_refl (PyStr "fever") eq_refl).
Defined.

(** C6: when the matcher returns no candidate at all, no group or only
    empty groups, the lookup returns the empty list, and no error entry. *)
Theorem no_candidates_empty_list (matcher : Matcher) (term : string)
  (matches : list (list concept)) :
  match_ matcher term true false = inr matches ->
  candidates matches = [] ->
  query_quickumls matcher term = [].
Proof.
  intros Hm Hc. unfold query_quickumls. rewrite query_body_eq, Hm; simpl.
  rewrite Hc. reflexivity.
Qed.

Lemma no_candidates_empty_list_witness :
  match_ demo_matcher "headache" true false = inr [] /\ candidates [] = []
  /\ query_quickumls demo_matcher "headache" = [].
Proof.
  split; [reflexivity|]. split; [reflexivity|].
  apply (no_candidates_empty_list demo_matcher "headache" []); reflexivity.
Defined.

Lemma normalize_each_raises (pre post : list concept) (c : concept)
  (e : exception) :
  Forall (fun c' => exists r, normalize c' = inr r) pre ->
  normalize c = inl e ->
  normalize_each (pre ++ c :: post) = inl e.
Proof.
  intros Hpre Hc. induction Hpre as [|c' pre (r & Hr) _ IH]; simpl.
  - now rewrite Hc.
  - now rewrite Hr, IH.
Qed.

(* ================================================================= *)
(** ** The process *)

Lemma initialize_returns (env : Env) (matcher : Matcher) (out : list string) :
  init_ok env matcher ->
  initialize_quickumls env out = (Return matcher, out).
Proof.
  intros (Hi & Hp & Hq).
  unfold initialize_quickumls, try_proc, seq, lift.
  rewrite Hi, Hp, Hq. reflexivity.
Qed.

Lemma contains_app (c : ascii) (a b : string) :
  contains c (a ++ b) = contains c a || contains c b.
Proof.
  induction a as [|x a IH]; simpl; [reflexivity|].
  now rewrite IH, orb_assoc.
Qed.

Lemma json_char_one_line (c : ascii) : contains newline (json_char c) = false.
Proof.
  destruct c as [b0 b1 b2 b3 b4 b5 b6 b7].
  destruct b0, b1, b2, b3, b4, b5, b6, b7; reflexivity.
Qed.

Lemma json_str_one_line (s : string) : contains newline (json_str s) = false.
Proof.
  unfold json_str. rewrite !contains_app.
  assert (contains newline (concat_map json_char s) = false) as ->.
  { induction s as [|c s IH]; simpl; [reflexivity|].
    now rewrite contains_app, json_char_one_line, IH. }
  reflexivity.
Qed.

(** [json.dumps({"error": msg})] is one line, whatever the message. *)
Lemma error_json_one_line (msg : string) :
  contains newline (json_dumps None (error_json msg)) = false.
Proof.
  unfold json_dumps, error_json.
  change (dumps_at None 0 (JObj [("error", JStr msg)]))
    with ("{" ++ (json_str "error" ++ ": " ++ json_str msg) ++ "}").
  rewrite !contains_app, !json_str_one_line. reflexivity.
Qed.

(** C4: when the index path does not exist, matcher initialization prints
    one line, a JSON object with the key ["error"], and the process exits
    with code 1, whatever the arguments select; nothing else is printed.
    The object reports the missing index, or the failed import when the
    library itself cannot be imported. *)
Theorem missing_index_one_json_error (env : Env) (args : Args) :
  path_exists env index_path = false ->
  exists msg,
    run (main env args) = (Exited 1, [json_dumps None (error_json msg)])
    /\ contains newline (json_dumps None (error_json msg)) = false
    /\ match import_quickumls env with
       | inr _ => msg = "QuickUMLS index not found at " ++ index_path
       | inl e => msg = "QuickUMLS initialization failed: " ++ exn_str e
       end.
Proof.
  intros Hmissing.
  unfold run, main, seq, initialize_quickumls, try_proc, lift.
  destruct (import_quickumls env) as [e|[]].
  - eexists; split; [reflexivity|]. split; [apply error_json_one_line|reflexivity].
  - rewrite Hmissing.
    eexists; split; [reflexivity|]. split; [apply error_json_one_line|reflexivity].
Qed.

Lemma missing_index_one_json_error_witness :
  path_exists env_without_index index_path = false
  /\ exists msg,
       run (main env_without_index (args_term "fever" simple_format))
       = (Exited 1, [json_dumps None (error_json msg)]).
Proof.
  split; [reflexivity|].
  destruct (missing_index_one_json_error env_without_index
              (args_term "fever" simple_format) eq_refl) as (msg & Hrun & _).
  exists msg; exact Hrun.
Defined.

Lemma main_batch_terms (env : Env) (matcher : Matcher) (args : Args)
  (terms : list string) :
  init_ok env matcher ->
  given_str (batch_file args) = None ->
  given_list (batch_terms args) = Some terms ->
  run (main env args)
  = (Exited 0,
     [json_dumps (Some 2%nat) (batch_json (batch_query_quickumls matcher terms))]).
Proof.
  intros Hinit Hfile Hterms. unfold run, main, seq.
  rewrite (initialize_returns _ _ _ Hinit), Hfile, Hterms. reflexivity.
Qed.

Lemma main_batch_file (env : Env) (matcher : Matcher) (args : Args)
  (path text : string) :
  init_ok env matcher ->
  given_str (batch_file args) = Some path ->
  open_read env path = inr text ->
  run (main env args)
  = (Exited 0,
     [json_dumps (Some 2%nat)
        (batch_json (batch_query_quickumls matcher (read_terms text)))]).
Proof.
  intros Hinit Hfile Hopen. unfold run, main, seq, lift.
  rewrite (initialize_returns _ _ _ Hinit), Hfile, Hopen. reflexivity.
Qed.

(** C5: an exception raised by the matcher, or by the normalization of a
    candidate, is caught: the lookup returns a list of one entry, an error
    entry with the text of the exception (behind the words
    [QuickUMLS query failed: ]).  The lookup returns in every case, with
    records or with that one error entry.  A batch records under every
    term the result of its own lookup, failed or not, and a batch run of
    the process prints the mapping and exits with code 0. *)
Theorem lookup_errors_are_caught (matcher : Matcher) :
  (forall term e,
      match_ matcher term true false = inl e ->
      query_quickumls matcher term
      = [Failed ("QuickUMLS query failed: " ++ exn_str e)])
  /\ (forall term matches pre c post e,
        match_ matcher term true false = inr matches ->
        candidates matches = (pre ++ c :: post)%list ->
        Forall (fun c' => exists r, normalize c' = inr r) pre ->
        normalize c = inl e ->
        query_quickumls matcher term
        = [Failed ("QuickUMLS query failed: " ++ exn_str e)])
  /\ (forall term,
        (exists rs, query_quickumls matcher term = List.map Found rs)
        \/ (exists e, query_quickumls matcher term
                      = [Failed ("QuickUMLS query failed: " ++ exn_str e)]))
  /\ (forall terms, exists d,
        batch_query_quickumls matcher terms = Results d
        /\ (forall t, In t terms ->
                      dict_get d t = Some (query_quickumls matcher t))
        /\ (forall t, ~ In t terms -> dict_get d t = None)
        /\ forall env args,
             init_ok env matcher ->
             given_str (batch_file args) = None ->
             given_list (batch_terms args) = Some terms ->
             run (main env args)
             = (Exited 0, [json_dumps (Some 2%nat) (batch_json (Results d))])).
Proof.
  repeat split.
  - intros term e Hm. apply query_raised. rewrite query_body_eq, Hm. reflexivity.
  - intros term matches pre c post e Hm Hc Hpre He.
    apply query_raised. rewrite query_body_eq, Hm; simpl.
    rewrite Hc, (normalize_each_raises pre post c e Hpre He). reflexivity.
  - intros term. destruct (query_body matcher term) as [e|rs] eqn:Hq.
    + right; exists e. now apply query_raised.
    + left; exists rs. now apply query_returned.
  - intros terms.
    destruct (batch_results_spec matcher terms) as (d & Hd & Hget).
    exists d. split; [exact Hd|]. split; [|split].
    + intros t Ht. rewrite Hget.
      destruct (in_dec string_dec t terms); [reflexivity|contradiction].
    + intros t Ht. rewrite Hget.
      destruct (in_dec string_dec t terms); [contradiction|reflexivity].
    + intros env args Hinit Hfile Hterms. rewrite <- Hd.
      now apply main_batch_terms.
Qed.

Lemma lookup_errors_are_caught_witness :
  match_ demo_matcher "boom" true false = inl (Exception "index is corrupt")
  /\ query_quickumls demo_matcher "boom"
     = [Failed "QuickUMLS query failed: index is corrupt"].
Proof.
  split; [reflexivity|].
  exact (proj1 (lookup_errors_are_caught demo_matcher) "boom"
           (Exception "index is corrupt") eq_refl).
Defined.

(** A batch with a failing term in the middle. *)
Example batch_goes_on_after_a_failure :
  batch_query_quickumls demo_matcher ["boom"; "headache"; "boom"]
  = Results [("boom", [Failed "QuickUMLS query failed: index is corrupt"]);
             ("headache", [])].
Proof. reflexivity. Qed.

(** A candidate whose [semtypes] is no list makes normalization raise. *)
Example normalization_failure_is_caught :
  query_quickumls
    {| match_ _ _ _ :=
         ret [[candidate "C0015967" "fever" 1 float_0_8 ["T184"];
               [("cui", PyStr "C1"); ("semtypes", PyInt 7)]]] |} "fever"
  = [Failed "QuickUMLS query failed: 'int' object is not iterable"].
Proof. reflexivity. Qed.

(* ================================================================= *)
(** ** The batch file *)

Lemma read_terms_filter (lines : list string) :
  flat_map (fun line => if String.eqb (strip line) "" then [] else [strip line])
    lines
  = List.filter (fun s => negb (String.eqb s "")) (List.map strip lines).
Proof.
  induction lines as [|l lines IH]; simpl; [reflexivity|].
  destruct (String.eqb (strip l) ""); simpl; now rewrite IH.
Qed.

(** C7: the terms of a batch file are its lines, trimmed, without those
    that are blank after trimming, in the order of the file; the file
    ["fever\n\n headache \n"] gives ["fever"] and ["headache"].  These
    terms are what the batch-file mode looks up. *)
Theorem batch_file_terms :
  (forall text, read_terms text = trimmed_nonblank_lines text)
  /\ read_terms demo_file = ["fever"; "headache"]
  /\ (forall env matcher args path text,
        init_ok env matcher ->
        given_str (batch_file args) = Some path ->
        open_read env path = inr text ->
        run (main env args)
        = (Exited 0,
           [json_dumps (Some 2%nat)
              (batch_json (batch_query_quickumls matcher (read_terms text)))])).
Proof.
  split; [|split].
  - intros text. apply read_terms_filter.
  - reflexivity.
  - intros env matcher args path text. apply main_batch_file.
Qed.

Lemma demo_init_ok (matcher : Matcher) (files : dict string) :
  init_ok (demo_env matcher files) matcher.
Proof. repeat split. Defined.

Lemma batch_file_terms_witness :
  run (main (demo_env silent_matcher [("terms.txt", demo_file)])
         (args_batch_file "terms.txt"))
  = (Exited 0,
     [json_dumps (Some 2%nat)
        (batch_json (Results [("fever", []); ("headache", [])]))]).
Proof.
  exact (proj2 (proj2 batch_file_terms)
           (demo_env silent_matcher [("terms.txt", demo_file)]) silent_matcher
           (args_batch_file "terms.txt") "terms.txt" demo_file
           (demo_init_ok _ _) eq_refl eq_refl).
Defined.

(* ================================================================= *)
(** ** The [simple] output *)

Lemma chars_app (a b : string) : chars (a ++ b) = (chars a ++ chars b)%list.
Proof. induction a as [|c a IH]; simpl; [reflexivity|now rewrite IH]. Qed.

Lemma uint_digits (d : Decimal.uint) :
  forallb is_digit (chars (NilEmpty.string_of_uint d)) = true.
Proof. induction d; simpl; auto. Qed.

Lemma uint_nonempty (d : Decimal.uint) :
  d <> Decimal.Nil -> exists c s, NilEmpty.string_of_uint d = String c s.
Proof. destruct d; simpl; intros H; try (now elim H); eexists; eexists; reflexivity. Qed.

(** The text of a natural number: digits, and at least one. *)
Lemma int_str_digits (n : Z) :
  0 <= n ->
  exists c s, int_str n = String c s
              /\ is_digit c = true /\ forallb is_digit (chars s) = true.
Proof.
  intros Hn. unfold int_str. destruct n as [|p|p]; [| |lia].
  - exists "0"%char, ""; repeat split.
  - simpl. pose proof (Unsigned.to_uint_nonnil p) as Hnil.
    pose proof (uint_digits (Pos.to_uint p)) as Hd.
    destruct (uint_nonempty _ Hnil) as (c & s & Hs).
    assert (NilZero.string_of_uint (Pos.to_uint p)
            = NilEmpty.string_of_uint (Pos.to_uint p)) as ->
      by (destruct (Pos.to_uint p); [now elim Hnil|reflexivity..]).
    rewrite Hs in *. simpl in Hd. apply andb_true_iff in Hd as [Hc Hrest].
    exists c, s; repeat split; assumption.
Qed.

Lemma digit_is_digit (z : Z) : 0 <= z < 10 -> is_digit (digit z) = true.
Proof.
  intros H.
  assert (z = 0 \/ z = 1 \/ z = 2 \/ z = 3 \/ z = 4 \/ z = 5 \/ z = 6
          \/ z = 7 \/ z = 8 \/ z = 9) as Hz by lia.
  repeat (destruct Hz as [->|Hz]; [reflexivity|]). subst z; reflexivity.
Qed.

Lemma digit_not_minus (c : ascii) : is_digit c = true -> Ascii.eqb c "-" = false.
Proof.
  unfold is_digit. intros H. apply andb_true_iff in H as [H _].
  destruct (Ascii.eqb_spec c "-") as [->|]; [discriminate H|reflexivity].
Qed.

Lemma forallb_rev {A} (f : A -> bool) (l : list A) :
  forallb f (List.rev l) = forallb f l.
Proof.
  induction l as [|x l IH]; simpl; [reflexivity|].
  rewrite forallb_app, IH; simpl. rewrite andb_true_r. apply andb_comm.
Qed.

Lemma fixed3_shape (q : Z) :
  0 <= q -> is_fixed3 (fixed3 q) = true /\ is_fixed3 ("-" ++ fixed3 q) = true.
Proof.
  intros Hq.
  assert (0 <= q / 1000) as Hint by (apply Z.div_pos; lia).
  destruct (int_str_digits _ Hint) as (c & s & Hs & Hc & Hrest).
  assert (forall body,
             body = fixed3 q ->
             match List.rev (chars body) with
             | d3 :: d2 :: d1 :: dot :: int_part =>
                 is_digit d1 && is_digit d2 && is_digit d3 && Ascii.eqb dot "."
                 && forallb is_digit int_part
                 && negb (Nat.eqb (List.length int_part) 0)
             | _ => false
             end = true) as Hbody.
  { intros body ->.
    assert (chars (fixed3 q)
            = (chars (String c s)
               ++ ["."%char; digit (q / 100 mod 10); digit (q / 10 mod 10);
                   digit (q mod 10)])%list) as ->
      by (unfold fixed3; rewrite Hs, chars_app; reflexivity).
    rewrite rev_app_distr. cbn [List.rev app chars].
    rewrite !digit_is_digit by (apply Z.mod_pos_bound; lia).
    rewrite forallb_app, forallb_rev, Hrest. cbn [forallb]. rewrite Hc.
    rewrite length_app. cbn [List.length].
    replace (List.length (List.rev (chars s)) + 1)%nat
      with (S (List.length (List.rev (chars s)))) by lia.
    reflexivity. }
  split.
  - unfold is_fixed3.
    assert (fixed3 q = String c (s ++ "." ++ String (digit (q / 100 mod 10))
              (String (digit (q / 10 mod 10)) (str1 (digit (q mod 10))))))
      as Hf by (unfold fixed3; now rewrite Hs).
    replace (match fixed3 q with
             | String c0 s' => if Ascii.eqb c0 "-" then s' else fixed3 q
             | EmptyString => fixed3 q
             end) with (fixed3 q);
      [now apply Hbody|].
    rewrite Hf. cbn iota. now rewrite (digit_not_minus c Hc).
  - unfold is_fixed3. cbn [append]. cbn iota.
    change (Ascii.eqb "-" "-") with true. cbn iota. now apply Hbody.
Qed.

Lemma round_thousandths_nonneg (m : positive) (e : Z) :
  0 <= round_thousandths m e.
Proof.
  unfold round_thousandths.
  set (A := Zpos m * 1000 * 2 ^ Z.max 0 e).
  set (B := 2 ^ Z.max 0 (- e)).
  assert (0 <= A) by (subst A; apply Z.mul_nonneg_nonneg; [lia|apply Z.pow_nonneg; lia]).
  assert (0 < B) by (subst B; apply Z.pow_pos_nonneg; lia).
  assert (0 <= A / B) by (apply Z.div_pos; lia).
  destruct (2 * (A mod B) ?= B); [destruct (Z.even (A / B))| |]; lia.
Qed.

(** A finite float comes out of [.3f] with three decimals. *)
Lemma float_format_fixed3 (f : spec_float) :
  is_finite f = true -> is_fixed3 (float_format_3f f) = true.
Proof.
  destruct f as [[|]|[|]| |[|] m e]; simpl; try discriminate; intros _;
    try reflexivity;
    destruct (fixed3_shape _ (round_thousandths_nonneg m e)) as [Hpos Hneg];
    assumption.
Qed.

Lemma format_3f_fixed3 (v : pyval) :
  finite_number v = true ->
  exists s, format_3f v = inr s /\ is_fixed3 s = true.
Proof.
  destruct v as [|[|]|z|f|s|l]; simpl; try discriminate.
  - intros _; eexists; split; reflexivity.
  - intros _; eexists; split; reflexivity.
  - destruct (int_to_float z) as [e|f]; simpl; [discriminate|].
    intros Hf; eexists; split; [reflexivity|now apply float_format_fixed3].
  - intros Hf; eexists; split; [reflexivity|now apply float_format_fixed3].
Qed.

Lemma print_simple_block (result : entry) (out : list string) :
  printable result = true ->
  print_simple result out = (Return tt, (out ++ simple_block result)%list).
Proof.
  destruct result as [r|error]; simpl.
  - intros Hf. destruct (format_3f_fixed3 _ Hf) as (s & Hs & _).
    unfold seq, print, lift. rewrite Hs. simpl.
    now rewrite <- !app_assoc.
  - intros _. unfold pure. now rewrite app_nil_r.
Qed.

Lemma for_proc_simple_blocks (results : list entry) (out : list string) :
  forallb printable results = true ->
  for_proc results print_simple out
  = (Return tt, (out ++ flat_map simple_block results)%list).
Proof.
  revert out; induction results as [|r results IH]; intros out; simpl.
  - intros _. unfold pure. now rewrite app_nil_r.
  - intros H. apply andb_true_iff in H as [Hr Hrest].
    unfold seq. rewrite (print_simple_block _ _ Hr), (IH _ Hrest).
    now rewrite <- app_assoc.
Qed.

Lemma main_simple (env : Env) (matcher : Matcher) (args : Args) (t : string) :
  init_ok env matcher ->
  single_term_mode args t ->
  output args = simple_format ->
  run (main env args)
  = match for_proc (query_quickumls matcher t) print_simple [] with
    | (Return _, out) => (Exited 0, out)
    | (Exit code, out) => (Exited code, out)
    | (Raise e, out) => (Traceback e, out)
    end.
Proof.
  intros Hinit (Hfile & Hterms & Hterm) Hout. unfold run, main, seq.
  rewrite (initialize_returns _ _ _ Hinit), Hfile, Hterms, Hterm, Hout.
  reflexivity.
Qed.

(** C8: in the [simple] output every candidate entry gives three labelled
    lines, [CUI: ], [Preferred: ] and [Similarity: ], and then the line
    [---]; the similarity is written with exactly three decimals.  The
    similarity is a score of the data model: a finite number.  Error
    entries give no line, and a run of the single-term mode prints the
    blocks of its entries in order and exits with code 0. *)
Theorem simple_output_blocks :
  (forall r,
      finite_number (similarity r) = true ->
      exists s,
        format_3f (similarity r) = inr s
        /\ is_fixed3 s = true
        /\ forall out,
             print_simple (Found r) out
             = (Return tt,
                List.app out ["CUI: " ++ py_str (cui r);
                              "Preferred: " ++ py_str (preferred_name r);
                              "Similarity: " ++ s;
                              "---"]))
  /\ (forall env matcher args t,
        init_ok env matcher ->
        single_term_mode args t ->
        output args = simple_format ->
        forallb printable (query_quickumls matcher t) = true ->
        run (main env args)
        = (Exited 0, flat_map simple_block (query_quickumls matcher t))).
Proof.
  split.
  - intros r Hf. destruct (format_3f_fixed3 _ Hf) as (s & Hs & Hshape).
    exists s; repeat split; [exact Hs|exact Hshape|].
    intros out. rewrite (print_simple_block (Found r) out Hf).
    simpl. now rewrite Hs.
  - intros env matcher args t Hinit Hmode Hout Hp.
    rewrite (main_simple _ _ _ _ Hinit Hmode Hout).
    now rewrite (for_proc_simple_blocks _ _ Hp).
Qed.

Lemma simple_output_blocks_witness :
  run (main (demo_env demo_matcher []) (args_term "fever" simple_format))
  = (Exited 0,
     ["CUI: C0424755"; "Preferred: fever symptoms"; "Similarity: 1.000"; "---";
      "CUI: C0015970"; "Preferred: fever of unknown origin";
      "Similarity: 0.900"; "---";
      "CUI: C0743973"; "Preferred: fevers"; "Similarity: 0.850"; "---"]).
Proof.
  exact (proj2 simple_output_blocks (demo_env demo_matcher []) demo_matcher
           (args_term "fever" simple_format) "fever" (demo_init_ok _ _)
           (conj eq_refl (conj eq_refl eq_refl)) eq_refl eq_refl).
Defined.

(** C9: in the [simple] output an error entry gives no line at all: a
    single-term run whose lookup failed prints nothing, and still exits
    with code 0. *)
Theorem simple_mode_silent_on_failure :
  (forall error out, print_simple (Failed error) out = (Return tt, out))
  /\ (forall env matcher args t e,
        init_ok env matcher ->
        single_term_mode args t ->
        output args = simple_format ->
        query_body matcher t = inl e ->
        query_quickumls matcher t
        = [Failed ("QuickUMLS query failed: " ++ exn_str e)]
        /\ run (main env args) = (Exited 0, [])).
Proof.
  split; [reflexivity|].
  intros env matcher args t e Hinit Hmode Hout Hq.
  pose proof (query_raised _ _ _ Hq) as Hres. split; [exact Hres|].
  rewrite (main_simple _ _ _ _ Hinit Hmode Hout), Hres. reflexivity.
Qed.

Lemma simple_mode_silent_on_failure_witness :
  query_body demo_matcher "boom" = inl (Exception "index is corrupt")
  /\ run (main (demo_env demo_matcher []) (args_term "boom" simple_format))
     = (Exited 0, []).
Proof.
  split; [reflexivity|].
  exact (proj2 (proj2 simple_mode_silent_on_failure (demo_env demo_matcher [])
                  demo_matcher (args_term "boom" simple_format) "boom"
                  (Exception "index is corrupt") (demo_init_ok _ _)
                  (conj eq_refl (conj eq_refl eq_refl)) eq_refl eq_refl)).
Defined.

(* ================================================================= *)
(** ** Uncaught exceptions *)

(** Initialization returns the matcher, or prints one line and exits
    with code 1. *)
Lemma initialize_outcome (env : Env) (out : list string) :
  (exists matcher,
      init_ok env matcher
      /\ initialize_quickumls env out = (Return matcher, out))
  \/ (exists line,
        initialize_quickumls env out = (Exit 1, (out ++ [line])%list)).
Proof.
  unfold initialize_quickumls, init_ok, try_proc, seq, lift.
  destruct (import_quickumls env) as [e|[]].
  - right; eexists; reflexivity.
  - destruct (path_exists env index_path).
    + destruct (QuickUMLS env index_path threshold 5) as [e|matcher].
      * right; eexists; reflexivity.
      * left; exists matcher; repeat split.
    + right; eexists; reflexivity.
Qed.

(** The [simple] output of an entry stops only on a score that [.3f]
    refuses. *)
Lemma print_simple_outcome (result : entry) (out : list string) :
  match print_simple result out with
  | (Return _, _) => True
  | (Exit _, _) => False
  | (Raise e, _) =>
      exists r, result = Found r /\ format_3f (similarity r) = inl e
  end.
Proof.
  destruct result as [r|error]; simpl; [|exact I].
  unfold seq, print, lift.
  destruct (format_3f (similarity r)) as [e|s] eqn:Hr; [|exact I].
  exists r; split; [reflexivity|exact Hr].
Qed.

Lemma for_proc_simple_outcome (results : list entry) (out : list string) :
  match for_proc results print_simple out with
  | (Return _, _) => True
  | (Exit _, _) => False
  | (Raise e, _) =>
      exists r, In (Found r) results /\ format_3f (similarity r) = inl e
  end.
Proof.
  revert out; induction results as [|x results IH]; intros out; simpl;
    [exact I|].
  unfold seq. pose proof (print_simple_outcome x out) as Hx.
  destruct (print_simple x out) as [[[]|e|code] out'].
  - specialize (IH out').
    destruct (for_proc results print_simple out') as [[[]|e|code] out''];
      [exact I| |exact IH].
    destruct IH as (r & Hin & Hr). exists r; split; [now right|exact Hr].
  - destruct Hx as (r & -> & Hr). exists r; split; [now left|exact Hr].
  - exact Hx.
Qed.




(** Without a mode the process prints a line of plain text and exits
    with code 1. *)
Example no_mode_usage_error :
  run (main (demo_env demo_matcher []) args_none)
  = (Exited 1,
     ["Error: Must provide either --term, --batch-file, or --batch-terms"]).
Proof. reflexivity. Qed.

(* ================================================================= *)
(** ** Further properties of the lookup command line *)

(** *** Initialization *)

(** X1: when the library cannot be imported or the matcher cannot be
    constructed, initialization prints one line, a JSON object whose
    ["error"] is [QuickUMLS initialization failed: ] and the text of the
    exception, and the process exits with code 1, whatever the arguments
    (lines 36-38).  A failed import is reported even when the index is
    missing too. *)
Theorem initialization_exception_reported (env : Env) (args : Args)
  (e : exception) :
  import_quickumls env = inl e
  \/ (import_quickumls env = inr tt
      /\ path_exists env index_path = true
      /\ QuickUMLS env index_path threshold 5 = inl e) ->
  run (main env args)
  = (Exited 1,
     [json_dumps None
        (error_json ("QuickUMLS initialization failed: " ++ exn_str e))])
  /\ contains newline
       (json_dumps None
          (error_json ("QuickUMLS initialization failed: " ++ exn_str e)))
     = false.
Proof.
  intros H. split; [|apply error_json_one_line].
  unfold run, main, seq, initialize_quickumls, try_proc, lift.
  destruct H as [Hi|(Hi & Hp & Hq)].
  - rewrite Hi. reflexivity.
  - rewrite Hi, Hp, Hq. reflexivity.
Qed.

Lemma initialization_exception_reported_witness :
  fst (run (main
              {| import_quickumls := raise "No module named 'quickumls'";
                 path_exists := fun _ => false;
                 QuickUMLS := fun _ _ _ => raise "unreachable";
                 open_read := fun _ => raise "unreachable" |}
              (args_batch_terms ["fever"])))
  = Exited 1.
Proof.
  exact (f_equal fst
           (proj1 (initialization_exception_reported
                     {| import_quickumls := raise "No module named 'quickumls'";
                        path_exists := fun _ => false;
                        QuickUMLS := fun _ _ _ => raise "unreachable";
                        open_read := fun _ => raise "unreachable" |}
                     (args_batch_terms ["fever"])
                     (Exception "No module named 'quickumls'")
                     (or_introl eq_refl)))).
Defined.

(** X2: initialization looks at three things only: whether the import
    goes through, whether the index path exists, and, when it does, what
    the constructor answers for the index path with threshold 0.7 and
    window 5.  It probes no other path, and it does not call the
    constructor when the import fails or the index is missing
    (lines 23-38). *)
Theorem initialization_observes (env env' : Env) (out : list string) :
  import_quickumls env = import_quickumls env' ->
  path_exists env index_path = path_exists env' index_path ->
  (import_quickumls env = inr tt ->
   path_exists env index_path = true ->
   QuickUMLS env index_path threshold 5 = QuickUMLS env' index_path threshold 5) ->
  initialize_quickumls env out = initialize_quickumls env' out.
Proof.
  intros Hi Hp Hq. unfold initialize_quickumls, try_proc, seq, lift.
  rewrite <- Hi, <- Hp.
  destruct (import_quickumls env) as [e|[]]; [reflexivity|].
  destruct (path_exists env index_path); [|reflexivity].
  now rewrite <- Hq.
Qed.

Lemma initialization_observes_witness :
  initialize_quickumls env_without_index []
  = initialize_quickumls
      {| import_quickumls := ret tt;
         path_exists := fun path => String.eqb path "/tmp";
         QuickUMLS := fun _ _ _ => ret demo_matcher;
         open_read := fun _ => ret "fever" |} [].
Proof.
  apply initialization_observes; [reflexivity|reflexivity|].
  intros _ H; discriminate H.
Defined.

(** *** Modes and exit codes *)

Lemma main_no_mode (env : Env) (matcher : Matcher) (args : Args) :
  init_ok env matcher ->
  no_mode args ->
  run (main env args) = (Exited 1, [usage_line]).
Proof.
  intros Hinit (Hfile & Hterms & Hterm). unfold run, main, seq.
  rewrite (initialize_returns _ _ _ Hinit), Hfile, Hterms, Hterm. reflexivity.
Qed.

Lemma main_json (env : Env) (matcher : Matcher) (args : Args) (t : string) :
  init_ok env matcher ->
  single_term_mode args t ->
  output args = json_format ->
  run (main env args)
  = (Exited 0,
     [json_dumps (Some 2%nat) (results_json (query_quickumls matcher t))]).
Proof.
  intros Hinit (Hfile & Hterms & Hterm) Hout. unfold run, main, seq.
  rewrite (initialize_returns _ _ _ Hinit), Hfile, Hterms, Hterm, Hout.
  reflexivity.
Qed.

Lemma main_batch_file_unreadable (env : Env) (matcher : Matcher) (args : Args)
  (path : string) (e : exception) :
  init_ok env matcher ->
  given_str (batch_file args) = Some path ->
  open_read env path = inl e ->
  run (main env args) = (Traceback e, []).
Proof.
  intros Hinit Hfile Hopen. unfold run, main, seq, lift.
  rewrite (initialize_returns _ _ _ Hinit), Hfile, Hopen. reflexivity.
Qed.

Lemma not_init_ok_exits (env : Env) (args : Args) :
  (forall matcher, ~ init_ok env matcher) ->
  exists line, run (main env args) = (Exited 1, [line]).
Proof.
  intros Hno. unfold run, main, seq.
  destruct (initialize_outcome env []) as [(matcher & Hinit & _)|(line & ->)].
  - now elim (Hno matcher).
  - exists line; reflexivity.
Qed.

(** The three modes, by precedence. *)
Lemma mode_cases (args : Args) :
  (exists path, given_str (batch_file args) = Some path)
  \/ (given_str (batch_file args) = None
      /\ exists terms, given_list (batch_terms args) = Some terms)
  \/ (exists t, single_term_mode args t)
  \/ no_mode args.
Proof.
  unfold single_term_mode, no_mode.
  destruct (given_str (batch_file args)) as [path|]; [left; now exists path|].
  destruct (given_list (batch_terms args)) as [terms|];
    [right; left; split; [reflexivity|now exists terms]|].
  destruct (given_str (term args)) as [t|].
  - right; right; left. exists t; repeat split.
  - right; right; right. repeat split.
Qed.

(** X3: with the matcher in place and no mode selected, the process
    prints the one line [Error: Must provide either --term, --batch-file,
    or --batch-terms], as plain text, and exits with code 1.  An empty
    [--term] or [--batch-file] counts as not given (lines 103-130). *)
Theorem no_mode_usage_error_exit_1 (env : Env) (matcher : Matcher)
  (args : Args) :
  init_ok env matcher ->
  (batch_file args = None \/ batch_file args = Some "") ->
  batch_terms args = None ->
  (term args = None \/ term args = Some "") ->
  run (main env args) = (Exited 1, [usage_line]).
Proof.
  intros Hinit Hfile Hterms Hterm. apply (main_no_mode env matcher); [exact Hinit|].
  unfold no_mode. rewrite Hterms.
  destruct Hfile as [-> | ->], Hterm as [-> | ->]; repeat split.
Qed.

Lemma no_mode_usage_error_exit_1_witness :
  run (main (demo_env demo_matcher [])
         {| term := Some ""; batch_file := None; batch_terms := None;
            output := simple_format |})
  = (Exited 1, [usage_line]).
Proof.
  apply (no_mode_usage_error_exit_1 (demo_env demo_matcher []) demo_matcher);
    [apply demo_init_ok|now left|reflexivity|now right].
Defined.

(** How a run of [main] ends, on arguments that are parsed: by running to
    its end, by [sys.exit(1)], or by an exception that nobody catches; by
    [sys.exit(1)] exactly when initialization yields no matcher or when no
    mode is selected. *)
Lemma main_endings (env : Env) (args : Args) :
  (fst (run (main env args)) = Exited 0
   \/ fst (run (main env args)) = Exited 1
   \/ exists e, fst (run (main env args)) = Traceback e)
  /\ (fst (run (main env args)) = Exited 1
      <-> (forall matcher, ~ init_ok env matcher) \/ no_mode args).
Proof.
  destruct (initialize_outcome env []) as [(matcher & Hinit & _)|(line & Hline)].
  - assert ((forall m', ~ init_ok env m') -> False) as Hsome
      by (intros Hno; exact (Hno matcher Hinit)).
    destruct (mode_cases args) as [(path & Hfile)|[(Hfile & terms & Hterms)
                                  |[(t & Hmode)|Hnone]]].
    + destruct (open_read env path) as [e|text] eqn:Hopen.
      * rewrite (main_batch_file_unreadable env matcher args path e
                   Hinit Hfile Hopen); simpl.
        split; [right; right; now exists e|].
        split; [discriminate|].
        intros [Hno|(Hf & _)]; [now elim Hsome|congruence].
      * rewrite (main_batch_file env matcher args path text Hinit Hfile Hopen); simpl.
        split; [now left|]. split; [discriminate|].
        intros [Hno|(Hf & _)]; [now elim Hsome|congruence].
    + rewrite (main_batch_terms env matcher args terms Hinit Hfile Hterms); simpl.
      split; [now left|]. split; [discriminate|].
      intros [Hno|(_ & Ht & _)]; [now elim Hsome|congruence].
    + assert (~ no_mode args) as Hmode'
        by (intros (_ & _ & Hn); destruct Hmode as (_ & _ & Ht); congruence).
      destruct (output args) eqn:Hout.
      * rewrite (main_json env matcher args t Hinit Hmode Hout); simpl.
        split; [now left|]. split; [discriminate|].
        intros [Hno|Hn]; [now elim Hsome|now elim Hmode'].
      * rewrite (main_simple env matcher args t Hinit Hmode Hout).
        pose proof (for_proc_simple_outcome (query_quickumls matcher t) []) as H.
        destruct (for_proc (query_quickumls matcher t) print_simple [])
          as [[[]|e|code] out]; simpl; [| |contradiction].
        -- split; [now left|]. split; [discriminate|].
           intros [Hno|Hn]; [now elim Hsome|now elim Hmode'].
        -- split; [right; right; now exists e|]. split; [discriminate|].
           intros [Hno|Hn]; [now elim Hsome|now elim Hmode'].
    + rewrite (main_no_mode env matcher args Hinit Hnone); simpl.
      split; [right; now left|]. split; [now right|reflexivity].
  - assert (run (main env args) = (Exited 1, [line])) as ->
      by (unfold run, main, seq; rewrite Hline; reflexivity).
    simpl. split; [right; now left|]. split; [|reflexivity].
    intros _. left. intros matcher Hinit.
    rewrite (initialize_returns env matcher [] Hinit) in Hline. discriminate.
Qed.

(** X4: on arguments that [parse_args] has accepted (a refusal of the
    arguments, at line 97, ends the process before, with status 2), a run
    of the wrapper ends in one of three ways: [main] runs to its end, it
    calls [sys.exit(1)], or an exception is caught by nobody.  It never
    calls [sys.exit] with another code, and it calls [sys.exit(1)] exactly
    when initialization yields no matcher or when no mode is selected.  The
    exit status of the process is therefore 0 or 1, and it is 1 in these
    two cases and, besides, whenever an exception is caught by nobody
    (lines 99-130). *)
Theorem main_exit_status (env : Env) (args : Args) :
  (fst (run (main env args)) = Exited 0
   \/ fst (run (main env args)) = Exited 1
   \/ exists e, fst (run (main env args)) = Traceback e)
  /\ (fst (run (main env args)) = Exited 1
      <-> (forall matcher, ~ init_ok env matcher) \/ no_mode args)
  /\ (exit_status (fst (run (main env args))) = 0
      \/ exit_status (fst (run (main env args))) = 1)
  /\ (exit_status (fst (run (main env args))) = 1
      <-> (forall matcher, ~ init_ok env matcher) \/ no_mode args
          \/ exists e, fst (run (main env args)) = Traceback e).
Proof.
  destruct (main_endings env args) as (Hcases & Hexit).
  split; [exact Hcases|]. split; [exact Hexit|].
  destruct Hcases as [H0|[H1|(e & He)]].
  - rewrite H0. cbn [exit_status]. split; [now left|].
    split; [discriminate|].
    intros [H|[H|(e & He)]].
    + apply (or_introl (B := no_mode args)), Hexit in H. congruence.
    + apply (or_intror (A := forall matcher, ~ init_ok env matcher)), Hexit
        in H. congruence.
    + discriminate He.
  - rewrite H1. cbn [exit_status]. split; [now right|].
    split; [|reflexivity].
    intros _. rewrite <- or_assoc. left. now apply Hexit.
  - rewrite He. cbn [exit_status]. split; [now right|].
    split; [|reflexivity].
    intros _. right; right. now exists e.
Qed.

Lemma main_exit_status_witness :
  no_mode args_none
  /\ fst (run (main (demo_env demo_matcher []) args_none)) = Exited 1
  /\ exit_status
       (fst (run (main (demo_env demo_matcher [])
                   (args_batch_file "missing.txt")))) = 1.
Proof.
  assert (no_mode args_none) as H by (repeat split).
  split; [exact H|]. split.
  - exact (proj2 (proj1 (proj2 (main_exit_status (demo_env demo_matcher [])
                                  args_none)))
             (or_intror H)).
  - apply (proj2 (proj2 (proj2 (main_exit_status (demo_env demo_matcher [])
                                  (args_batch_file "missing.txt"))))).
    right; right. eexists. reflexivity.
Defined.

(** X5: the modes go by precedence.  With a batch file given, the batch
    terms, the term and the output format change nothing; without a batch
    file and with batch terms given, the term and the output format change
    nothing (lines 103-115). *)
Theorem mode_precedence (env : Env) (args args' : Args) :
  (forall path,
      given_str (batch_file args) = Some path ->
      given_str (batch_file args') = Some path ->
      run (main env args) = run (main env args'))
  /\ (forall terms,
        given_str (batch_file args) = None ->
        given_str (batch_file args') = None ->
        given_list (batch_terms args) = Some terms ->
        given_list (batch_terms args') = Some terms ->
        run (main env args) = run (main env args')).
Proof.
  split.
  - intros path H H'. unfold run, main, seq.
    destruct (initialize_quickumls env []) as [[matcher|e|code] out];
      [|reflexivity..].
    now rewrite H, H'.
  - intros terms H H' Ht Ht'. unfold run, main, seq.
    destruct (initialize_quickumls env []) as [[matcher|e|code] out];
      [|reflexivity..].
    now rewrite H, H', Ht, Ht'.
Qed.

Lemma mode_precedence_witness :
  run (main (demo_env demo_matcher [("terms.txt", demo_file)])
         {| term := Some "boom"; batch_file := Some "terms.txt";
            batch_terms := Some ["boom"]; output := simple_format |})
  = run (main (demo_env demo_matcher [("terms.txt", demo_file)])
           (args_batch_file "terms.txt")).
Proof.
  exact (proj1 (mode_precedence
                  (demo_env demo_matcher [("terms.txt", demo_file)])
                  {| term := Some "boom"; batch_file := Some "terms.txt";
                     batch_terms := Some ["boom"]; output := simple_format |}
                  (args_batch_file "terms.txt"))
           "terms.txt" eq_refl eq_refl).
Defined.

(** X6: a batch file and its terms given on the command line are the
    same run: reading the terms from a file that opens and passing the
    same terms to [--batch-terms] print the same and end the same
    (lines 103-113). *)
Theorem batch_file_as_batch_terms (env : Env) (args_file args_terms : Args)
  (path text : string) :
  given_str (batch_file args_file) = Some path ->
  open_read env path = inr text ->
  given_str (batch_file args_terms) = None ->
  given_list (batch_terms args_terms) = Some (read_terms text) ->
  run (main env args_file) = run (main env args_terms).
Proof.
  intros Hfile Hopen Hnone Hterms. unfold run, main, seq.
  destruct (initialize_quickumls env []) as [[matcher|e|code] out];
    [|reflexivity..].
  unfold lift. now rewrite Hfile, Hopen, Hnone, Hterms.
Qed.

Lemma batch_file_as_batch_terms_witness :
  run (main (demo_env demo_matcher [("terms.txt", demo_file)])
         (args_batch_file "terms.txt"))
  = run (main (demo_env demo_matcher [("terms.txt", demo_file)])
           (args_batch_terms ["fever"; "headache"])).
Proof.
  exact (batch_file_as_batch_terms
           (demo_env demo_matcher [("terms.txt", demo_file)])
           (args_batch_file "terms.txt")
           (args_batch_terms ["fever"; "headache"]) "terms.txt" demo_file
           eq_refl eq_refl eq_refl eq_refl).
Defined.

(** *** What a lookup keeps *)

Lemma num_lt_not_ge (x y : number) :
  num_lt y x = true -> num_ge y x = false.
Proof.
  destruct x as [| |p|], y as [| |q|]; simpl; try discriminate; try reflexivity.
  now intros ->.
Qed.

Lemma num_below_not_ge (x y z : number) :
  num_lt y x = true -> num_ge y z = true -> num_ge z x = false.
Proof.
  destruct x as [| |p|], y as [| |q|], z as [| |r|]; simpl;
    try discriminate; try reflexivity.
  unfold Qltb. rewrite !negb_involutive, negb_true_iff.
  intros Hyx Hzy. apply Qle_bool_iff in Hzy.
  destruct (Qle_bool p r) eqn:Hpr; [|reflexivity].
  apply Qle_bool_iff in Hpr.
  assert (Qle_bool p q = true) as Hpq
    by (apply Qle_bool_iff; eapply Qle_trans; eassumption).
  congruence.
Qed.

Lemma num_ge_not_lt (x y : number) : num_ge y x = true -> num_lt y x = false.
Proof.
  destruct x as [| |p|], y as [| |q|]; simpl; try discriminate; try reflexivity.
  now rewrite negb_true_iff.
Qed.

Lemma StronglySorted_app_inv {A} (R : A -> A -> Prop) (l1 l2 : list A) :
  StronglySorted R (l1 ++ l2) ->
  StronglySorted R l1 /\ StronglySorted R l2
  /\ forall a b, In a l1 -> In b l2 -> R a b.
Proof.
  induction l1 as [|x l1 IH]; simpl; intros Hs.
  - repeat split; [constructor|exact Hs|intros a b []].
  - inversion Hs as [|? ? Hs' Hall]; subst.
    destruct (IH Hs') as (H1 & H2 & H12).
    rewrite Forall_forall in Hall. repeat split.
    + constructor; [exact H1|].
      apply Forall_forall; intros z Hz. apply Hall, in_or_app; now left.
    + exact H2.
    + intros a b [<-|Ha] Hb; [apply Hall, in_or_app; now right|now apply H12].
Qed.

Section Stable.
Context {A : Type}.
Variable key : A -> pyval.
Variable v : pyval.

Let ordered' (a : A) : Prop := ordered_number (key a) = true.
Let same (a : A) : bool := value_ge (key a) v && value_ge v (key a).

Lemma below_not_same (x z : A) :
  same x = true -> value_ge (key z) (key x) = false -> same z = false.
Proof.
  unfold same. intros Hx Hz. apply andb_true_iff in Hx as [_ Hvx].
  destruct (value_ge (key z) v) eqn:Hzv; [|reflexivity].
  rewrite (value_ge_trans _ _ _ Hzv Hvx) in Hz. discriminate.
Qed.

Lemma insert_desc_stable (x : A) (l l' : list A) :
  ordered' x -> Forall ordered' l ->
  StronglySorted (key_ge key) l ->
  insert_desc key x l = inr l' ->
  filter same l' = filter same (l ++ [x])%list.
Proof.
  intros Hx. revert l'; induction l as [|y l IH]; simpl; intros l' Hl Hs.
  - now intros [= <-].
  - inversion Hl as [|? ? Hy Hl']; subst.
    inversion Hs as [|? ? Hs' Hall]; subst.
    destruct (ordered_number_value _ Hx) as (vx & Ex & Nx).
    destruct (ordered_number_value _ Hy) as (vy & Ey & Ny).
    rewrite (py_lt_numbers _ _ _ _ Ey Ex); simpl.
    destruct (num_lt vy vx) eqn:Hlt.
    + intros [= <-]. rewrite filter_app. simpl.
      destruct (same x) eqn:Hsx; [|now rewrite app_nil_r].
      assert (forall z, In z (y :: l) -> same z = false) as Hbelow.
      { intros z Hz. apply (below_not_same x z Hsx).
        destruct Hz as [<-|Hz].
        - unfold value_ge. rewrite Ey, Ex. now apply num_lt_not_ge.
        - rewrite Forall_forall in Hall. specialize (Hall z Hz).
          unfold key_ge, value_ge in Hall. unfold value_ge.
          rewrite Ey in Hall. rewrite Ex.
          destruct (number_of (key z)) as [vz|]; [|reflexivity].
          eapply num_below_not_ge; eassumption. }
      rewrite (Hbelow y (or_introl eq_refl)).
      assert (filter same l = []) as ->.
      { clear -Hbelow. induction l as [|z l IHl]; simpl; [reflexivity|].
        rewrite (Hbelow z (or_intror (or_introl eq_refl))).
        apply IHl. intros z' [<-|Hz'];
          [apply Hbelow; now left|apply Hbelow; right; now right]. }
      reflexivity.
    + destruct (insert_desc key x l) as [e|r] eqn:Hr; simpl; [discriminate|].
      intros [= <-]. simpl. now rewrite (IH r Hl' Hs' eq_refl).
Qed.

Lemma sort_loop_stable (l acc l' : list A) :
  Forall ordered' l -> Forall ordered' acc ->
  StronglySorted (key_ge key) acc ->
  for_each l (insert_desc key) acc = inr l' ->
  filter same l' = filter same (acc ++ l)%list.
Proof.
  revert acc; induction l as [|x l IH]; simpl; intros acc Hl Ha Hs.
  - intros [= <-]. now rewrite app_nil_r.
  - inversion Hl as [|? ? Hx Hl']; subst.
    destruct (insert_desc key x acc) as [e|acc'] eqn:Hi; simpl; [discriminate|].
    intros H.
    assert (Forall ordered' acc') as Ha'.
    { eapply Permutation_Forall;
        [apply Permutation_sym; eapply insert_desc_perm; exact Hi|].
      now constructor. }
    rewrite (IH acc' Hl' Ha' (insert_desc_sorted key x acc acc' Hx Ha Hs Hi) H).
    rewrite filter_app, (insert_desc_stable x acc acc' Hx Ha Hs Hi).
    rewrite <- filter_app, <- app_assoc. reflexivity.
Qed.

(** Elements with the same key leave the sort in the order they came. *)
Lemma sort_reverse_stable (l l' : list A) :
  Forall ordered' l ->
  sort_reverse key l = inr l' ->
  filter same l' = filter same l.
Proof.
  intros Hl H.
  exact (sort_loop_stable l [] l' Hl (Forall_nil _) (SSorted_nil _) H).
Qed.

Lemma insert_desc_last (x : A) (l : list A) :
  ordered' x -> Forall ordered' l ->
  Forall (fun y => key_ge key y x) l ->
  insert_desc key x l = inr (l ++ [x])%list.
Proof.
  intros Hx; induction l as [|y l IH]; simpl; intros Hl Hge; [reflexivity|].
  inversion Hl as [|? ? Hy Hl']; subst.
  inversion Hge as [|? ? Hyx Hge']; subst.
  destruct (ordered_number_value _ Hx) as (vx & Ex & Nx).
  destruct (ordered_number_value _ Hy) as (vy & Ey & Ny).
  rewrite (py_lt_numbers _ _ _ _ Ey Ex); simpl.
  unfold key_ge, value_ge in Hyx. rewrite Ey, Ex in Hyx.
  rewrite (num_ge_not_lt _ _ Hyx). now rewrite (IH Hl' Hge').
Qed.

Lemma sort_loop_presorted (l acc : list A) :
  Forall ordered' l -> Forall ordered' acc ->
  StronglySorted (key_ge key) (acc ++ l) ->
  for_each l (insert_desc key) acc = inr (acc ++ l)%list.
Proof.
  revert acc; induction l as [|x l IH]; simpl; intros acc Hl Ha Hs.
  - now rewrite app_nil_r.
  - inversion Hl as [|? ? Hx Hl']; subst.
    assert (Forall (fun y => key_ge key y x) acc) as Hge.
    { apply Forall_forall; intros y Hy.
      apply (proj2 (proj2 (StronglySorted_app_inv _ _ _ Hs)) y x Hy).
      now left. }
    rewrite (insert_desc_last x acc Hx Ha Hge); simpl.
    replace (acc ++ x :: l)%list with ((acc ++ [x]) ++ l)%list
      by (now rewrite <- app_assoc).
    apply IH; [exact Hl'| |now rewrite <- app_assoc].
    apply Forall_app; split; [exact Ha|now constructor].
Qed.

(** A list that is in order already leaves the sort as it came. *)
Lemma sort_reverse_presorted (l : list A) :
  Forall ordered' l ->
  StronglySorted (key_ge key) l ->
  sort_reverse key l = inr l.
Proof.
  intros Hl Hs. exact (sort_loop_presorted l [] Hl (Forall_nil _) Hs).
Qed.
End Stable.

Lemma normalize_each_length (cs : list concept) (rs : list match_record) :
  normalize_each cs = inr rs -> List.length rs = List.length cs.
Proof.
  intros H. apply normalize_each_scores in H.
  now rewrite <- (length_map similarity), H, length_map.
Qed.

Lemma scores_ordered_records (matcher : Matcher) (term : string) matches rs :
  match_ matcher term true false = inr matches ->
  normalize_each (candidates matches) = inr rs ->
  scores_ordered matcher term ->
  Forall (fun r => ordered_number (similarity r) = true) rs.
Proof.
  intros Hm Hn Hscores. specialize (Hscores _ Hm).
  apply normalize_each_scores in Hn.
  apply Forall_forall; intros r Hr.
  assert (In (similarity r) (List.map score (candidates matches))) as Hin
    by (rewrite <- Hn; now apply in_map).
  apply in_map_iff in Hin as (c & Hc & Hin). rewrite <- Hc.
  rewrite Forall_forall in Hscores. now apply Hscores.
Qed.

(** With listable semtypes and ordered scores the lookup returns the
    first three of the sorted records. *)
Lemma lookup_arranged (matcher : Matcher) (term : string) matches rs :
  match_ matcher term true false = inr matches ->
  normalize_each (candidates matches) = inr rs ->
  scores_ordered matcher term ->
  exists sorted,
    sort_reverse similarity rs = inr sorted
    /\ query_quickumls matcher term = List.map Found (firstn 3 sorted).
Proof.
  intros Hm Hn Hscores.
  pose proof (scores_ordered_records _ _ _ _ Hm Hn Hscores) as Hord.
  destruct (sort_reverse_returns similarity rs Hord) as (sorted & Hs).
  exists sorted; split; [exact Hs|].
  unfold query_quickumls. rewrite query_body_eq, Hm. cbn -[firstn].
  rewrite Hn. cbn -[firstn]. rewrite Hs. reflexivity.
Qed.

(** X7: the entries that a lookup returns are the best ones.  When every
    candidate gets its record and the scores are ordered numbers, the
    records split into those returned and those dropped, and every
    returned entry scores at least as much as every dropped one
    (lines 68-70). *)
Theorem lookup_keeps_the_best (matcher : Matcher) (term : string) matches rs :
  match_ matcher term true false = inr matches ->
  normalize_each (candidates matches) = inr rs ->
  scores_ordered matcher term ->
  exists kept dropped,
    query_quickumls matcher term = List.map Found kept
    /\ Permutation (kept ++ dropped) rs
    /\ forall r r', In r kept -> In r' dropped ->
                    value_ge (similarity r) (similarity r') = true.
Proof.
  intros Hm Hn Hscores.
  destruct (lookup_arranged _ _ _ _ Hm Hn Hscores) as (sorted & Hs & Hq).
  exists (firstn 3 sorted), (skipn 3 sorted). split; [exact Hq|].
  rewrite firstn_skipn. split; [now apply (sort_reverse_perm similarity)|].
  pose proof (sort_reverse_sorted similarity rs sorted
                (scores_ordered_records _ _ _ _ Hm Hn Hscores) Hs) as Hsorted.
  rewrite <- (firstn_skipn 3 sorted) in Hsorted.
  exact (proj2 (proj2 (StronglySorted_app_inv _ _ _ Hsorted))).
Qed.

Lemma lookup_keeps_the_best_witness :
  exists kept dropped : list match_record,
    query_quickumls demo_matcher "fever" = List.map Found kept
    /\ List.length kept = 3%nat /\ List.length dropped = 1%nat.
Proof.
  destruct (lookup_keeps_the_best demo_matcher "fever" _ _ eq_refl eq_refl
              demo_scores_ordered) as (kept & dropped & Hq & Hperm & _).
  exists kept, dropped. split; [exact Hq|].
  assert (List.length kept = 3%nat) as Hk.
  { apply (f_equal (@List.length entry)) in Hq. rewrite length_map in Hq.
    rewrite <- Hq. reflexivity. }
  split; [exact Hk|].
  apply Permutation_length in Hperm. rewrite length_app, Hk in Hperm.
  simpl in Hperm. lia.
Defined.

(** X8: a lookup that does not fail returns as many entries as there are
    candidates, and three when there are more: with listable semtypes and
    ordered scores the length of the result is the smaller of 3 and the
    number of candidates over all groups (lines 46-70). *)
Theorem lookup_count (matcher : Matcher) (term : string) matches rs :
  match_ matcher term true false = inr matches ->
  normalize_each (candidates matches) = inr rs ->
  scores_ordered matcher term ->
  List.length (query_quickumls matcher term)
  = Nat.min 3 (List.length (candidates matches)).
Proof.
  intros Hm Hn Hscores.
  destruct (lookup_arranged _ _ _ _ Hm Hn Hscores) as (sorted & Hs & ->).
  rewrite length_map, length_firstn.
  apply sort_reverse_perm, Permutation_length in Hs.
  now rewrite Hs, (normalize_each_length _ _ Hn).
Qed.

Lemma lookup_count_witness :
  List.length (query_quickumls demo_matcher "fever") = 3%nat.
Proof.
  exact (lookup_count demo_matcher "fever" _ _ eq_refl eq_refl
           demo_scores_ordered).
Defined.

(** X9: ties keep the order of the matcher.  The result is the first
    three of an arrangement of the records in which, for every score,
    the records with that score stand in the order in which the matcher
    returned their candidates (line 69: the sort is stable, also with
    [reverse=True]). *)
Theorem lookup_ties_in_matcher_order (matcher : Matcher) (term : string)
  matches rs :
  match_ matcher term true false = inr matches ->
  normalize_each (candidates matches) = inr rs ->
  scores_ordered matcher term ->
  exists sorted,
    query_quickumls matcher term = List.map Found (firstn 3 sorted)
    /\ Permutation sorted rs
    /\ StronglySorted (key_ge similarity) sorted
    /\ forall v, filter (same_score v) sorted = filter (same_score v) rs.
Proof.
  intros Hm Hn Hscores.
  pose proof (scores_ordered_records _ _ _ _ Hm Hn Hscores) as Hord.
  destruct (lookup_arranged _ _ _ _ Hm Hn Hscores) as (sorted & Hs & Hq).
  exists sorted. split; [exact Hq|].
  split; [now apply (sort_reverse_perm similarity)|].
  split; [now apply (sort_reverse_sorted similarity rs)|].
  intros v. exact (sort_reverse_stable similarity v rs sorted Hord Hs).
Qed.

Lemma tie_scores_ordered : scores_ordered tie_matcher "tie".
Proof.
  intros matches H. injection H as <-. repeat constructor.
Defined.

Lemma lookup_ties_in_matcher_order_witness :
  List.map (fun e => match e with Found r => cui r | Failed _ => PyNone end)
    (query_quickumls tie_matcher "tie")
  = [PyStr "C2"; PyStr "C5"; PyStr "C1"]
  /\ exists sorted,
       query_quickumls tie_matcher "tie" = List.map Found (firstn 3 sorted)
       /\ List.map cui (filter (same_score (PyFloat float_0_8)) sorted)
          = [PyStr "C1"; PyStr "C3"; PyStr "C4"].
Proof.
  split; [reflexivity|].
  destruct (lookup_ties_in_matcher_order tie_matcher "tie" _ _ eq_refl eq_refl
              tie_scores_ordered) as (sorted & Hq & _ & _ & Hties).
  exists sorted. split; [exact Hq|].
  rewrite (Hties (PyFloat float_0_8)). reflexivity.
Defined.

(** X10: when the matcher returns its candidates best first, the lookup
    returns the records of the first three candidates, in that order
    (lines 46-70). *)
Theorem lookup_of_presorted (matcher : Matcher) (term : string) matches rs :
  match_ matcher term true false = inr matches ->
  normalize_each (candidates matches) = inr rs ->
  scores_ordered matcher term ->
  StronglySorted (key_ge similarity) rs ->
  query_quickumls matcher term = List.map Found (firstn 3 rs).
Proof.
  intros Hm Hn Hscores Hsorted.
  pose proof (scores_ordered_records _ _ _ _ Hm Hn Hscores) as Hord.
  destruct (lookup_arranged _ _ _ _ Hm Hn Hscores) as (sorted & Hs & ->).
  rewrite (sort_reverse_presorted similarity rs Hord Hsorted) in Hs.
  now injection Hs as <-.
Qed.

Lemma ranked_scores_ordered : scores_ordered ranked_matcher "fever".
Proof.
  intros matches H. injection H as <-. repeat constructor.
Defined.

Lemma lookup_of_presorted_witness :
  List.map (fun e => match e with Found r => cui r | Failed _ => PyNone end)
    (query_quickumls ranked_matcher "fever")
  = [PyStr "C1"; PyStr "C2"; PyStr "C3"].
Proof.
  rewrite (lookup_of_presorted ranked_matcher "fever" _ _ eq_refl eq_refl
             ranked_scores_ordered).
  - reflexivity.
  - repeat constructor.
Defined.

(** *** The batch *)

Lemma keys_dict_set {V} (d : dict V) (k : string) (v : V) :
  (In k (keys d) -> keys (dict_set d k v) = keys d)
  /\ (~ In k (keys d) -> keys (dict_set d k v) = (keys d ++ [k])%list).
Proof.
  unfold keys. induction d as [|[k0 v0] d [IH1 IH2]]; simpl.
  - split; [intros []|reflexivity].
  - destruct (String.eqb_spec k0 k) as [->|Hne]; simpl.
    + split; [reflexivity|]. intros H; elim H; now left.
    + split.
      * intros [H|H]; [now elim Hne|]. now rewrite IH1.
      * intros H. rewrite IH2; [reflexivity|]. intros Hin; apply H; now right.
Qed.

Lemma batch_loop_keys (matcher : Matcher) (terms : list string)
  (d0 d : dict (list entry)) :
  for_each terms
    (fun term batch_results =>
       let results := query_quickumls matcher term in
       ret (dict_set batch_results term results)) d0 = inr d ->
  (NoDup (keys d0) -> NoDup (keys d))
  /\ (forall t, In t (keys d) <-> In t (keys d0) \/ In t terms)
  /\ (NoDup terms -> (forall t, In t terms -> ~ In t (keys d0)) ->
      keys d = (keys d0 ++ terms)%list).
Proof.
  revert d0; induction terms as [|x terms IH]; intros d0; cbn [for_each bind ret].
  - intros [= <-]. split; [auto|]. split.
    + intros t; split; [now left|intros [H|[]]; exact H].
    + intros _ _. now rewrite app_nil_r.
  - intros H. cbv zeta in H. apply IH in H as (Hnd & Hin & Hord).
    destruct (keys_dict_set d0 x (query_quickumls matcher x)) as [Kin Kout].
    destruct (in_dec string_dec x (keys d0)) as [Hx|Hx].
    + rewrite (Kin Hx) in *. split; [exact Hnd|]. split.
      * intros t. rewrite Hin. split.
        -- intros [H|H]; [now left|right; now right].
        -- intros [H|[<-|H]]; [now left|now left|now right].
      * intros Hterms Hfresh. elim (Hfresh x (or_introl eq_refl) Hx).
    + rewrite (Kout Hx) in *. split; [|split].
      * intros Hd0. apply Hnd. apply NoDup_app.
        -- exact Hd0.
        -- constructor; [intros []|constructor].
        -- intros t Ht [<-|[]]. contradiction.
      * intros t. rewrite Hin, in_app_iff. simpl. split.
        -- intros [[H|[<-|[]]]|H]; [now left|right; now left|right; now right].
        -- intros [H|[<-|H]]; [left; now left|left; right; now left|now right].
      * intros Hterms Hfresh. inversion Hterms as [|? ? Hxt Hterms']; subst.
        rewrite Hord; [now rewrite <- app_assoc|exact Hterms'|].
        intros t Ht Hin'. apply in_app_iff in Hin' as [Hin'|[<-|[]]].
        -- apply (Hfresh t); [now right|exact Hin'].
        -- contradiction.
Qed.

(** X11: the mapping of a batch has one key per distinct term: its keys
    are without repetition and are exactly the terms given, a term given
    twice is looked up again and keeps one key, and when the terms are all
    different the keys are the terms in the order given (lines 78-84). *)
Theorem batch_keys_are_the_distinct_terms (matcher : Matcher)
  (terms : list string) :
  exists d,
    batch_query_quickumls matcher terms = Results d
    /\ NoDup (keys d)
    /\ (forall t, In t (keys d) <-> In t terms)
    /\ (List.length d <= List.length terms)%nat
    /\ (NoDup terms -> keys d = terms).
Proof.
  destruct (batch_loop matcher terms []) as (d & Hd & _).
  destruct (batch_loop_keys matcher terms [] d Hd) as (Hnd & Hin & Hord).
  exists d. split.
  { unfold batch_query_quickumls.
    change (try_except
              (bind (for_each terms
                       (fun term batch_results =>
                          let results := query_quickumls matcher term in
                          ret (dict_set batch_results term results)) [])
                    (fun batch_results => ret (Results batch_results)))
              (fun e => BatchFailed ("Batch QuickUMLS query failed: " ++ exn_str e))
            = Results d).
    rewrite Hd. reflexivity. }
  split; [apply Hnd; constructor|]. split.
  - intros t. rewrite Hin. simpl. tauto.
  - split.
    + rewrite <- (length_map fst d). fold (keys d).
      apply NoDup_incl_length; [apply Hnd; constructor|].
      intros t Ht. apply Hin in Ht as [[]|Ht]. exact Ht.
    + intros Hterms. apply Hord; [exact Hterms|intros t _ []].
Qed.

Lemma batch_keys_are_the_distinct_terms_witness :
  NoDup ["fever"; "boom"; "headache"]
  /\ exists d,
       batch_query_quickumls demo_matcher ["fever"; "boom"; "headache"]
       = Results d
       /\ keys d = ["fever"; "boom"; "headache"].
Proof.
  assert (NoDup ["fever"; "boom"; "headache"]) as Hnd.
  { repeat constructor; simpl; intuition discriminate. }
  split; [exact Hnd|].
  destruct (batch_keys_are_the_distinct_terms demo_matcher
              ["fever"; "boom"; "headache"]) as (d & Hd & _ & _ & _ & Hord).
  exists d; split; [exact Hd|exact (Hord Hnd)].
Defined.

Lemma query_same_answer (matcher matcher' : Matcher) (term : string) :
  match_ matcher term true false = match_ matcher' term true false ->
  query_quickumls matcher term = query_quickumls matcher' term.
Proof. intros H. unfold query_quickumls, query_body. now rewrite H. Qed.

(** X12: a batch asks the matcher about the terms given and about
    nothing else: two matchers that answer the same for each of these
    terms give the same mapping (lines 80-82). *)
Theorem batch_asks_only_its_terms (matcher matcher' : Matcher)
  (terms : list string) :
  (forall t, In t terms ->
             match_ matcher t true false = match_ matcher' t true false) ->
  batch_query_quickumls matcher terms = batch_query_quickumls matcher' terms.
Proof.
  intros H. unfold batch_query_quickumls. f_equal. f_equal.
  generalize (@nil (string * list entry)) as d0.
  induction terms as [|x terms IH]; intros d0; cbn [for_each bind ret];
    [reflexivity|].
  cbv zeta. rewrite (query_same_answer matcher matcher' x (H x (or_introl eq_refl))).
  apply IH. intros t Ht. apply H. now right.
Qed.

Lemma batch_asks_only_its_terms_witness :
  batch_query_quickumls demo_matcher ["headache"; "cough"]
  = batch_query_quickumls silent_matcher ["headache"; "cough"].
Proof.
  apply batch_asks_only_its_terms.
  intros t [<-|[<-|[]]]; reflexivity.
Defined.

(* ================================================================= *)
(** ** Further properties of the batch file *)

Lemma append_nil_r (s : string) : s ++ "" = s.
Proof. induction s as [|c s IH]; simpl; [reflexivity|now rewrite IH]. Qed.

Lemma append_assoc (a b c : string) : (a ++ b) ++ c = a ++ b ++ c.
Proof. induction a as [|x a IH]; simpl; [reflexivity|now rewrite IH]. Qed.

Lemma of_list_app (l1 l2 : list ascii) :
  string_of_list_ascii (l1 ++ l2)
  = string_of_list_ascii l1 ++ string_of_list_ascii l2.
Proof. induction l1 as [|c l1 IH]; simpl; [reflexivity|now rewrite IH]. Qed.

Lemma to_list_app (a b : string) :
  list_ascii_of_string (a ++ b)
  = (list_ascii_of_string a ++ list_ascii_of_string b)%list.
Proof. induction a as [|c a IH]; simpl; [reflexivity|now rewrite IH]. Qed.

Lemma rev_str_app (a b : string) : rev_str (a ++ b) = rev_str b ++ rev_str a.
Proof.
  unfold rev_str. now rewrite to_list_app, rev_app_distr, of_list_app.
Qed.

Lemma rev_str_involutive (s : string) : rev_str (rev_str s) = s.
Proof.
  unfold rev_str.
  now rewrite list_ascii_of_string_of_list_ascii, rev_involutive,
    string_of_list_ascii_of_string.
Qed.

Lemma rev_str_cons (c : ascii) (s : string) :
  rev_str (String c s) = rev_str s ++ str1 c.
Proof. change (String c s) with (str1 c ++ s). now rewrite rev_str_app. Qed.

Lemma lstrip_head (s : string) : starts_with_space (lstrip s) = false.
Proof.
  induction s as [|c s IH]; simpl; [reflexivity|].
  destruct (isspace c) eqn:Hc; [exact IH|simpl; exact Hc].
Qed.

Lemma lstrip_suffix (s : string) : exists pre, s = pre ++ lstrip s.
Proof.
  induction s as [|c s (pre & IH)]; simpl.
  - now exists "".
  - destruct (isspace c).
    + exists (String c pre). simpl. now rewrite <- IH.
    + now exists "".
Qed.

Lemma lstrip_fixed (s : string) : starts_with_space s = false -> lstrip s = s.
Proof. destruct s as [|c s]; simpl; [reflexivity|now intros ->]. Qed.

(** What [strip] returns is a piece of the text, between what it removes. *)
Lemma strip_inside (s : string) : exists pre post, s = pre ++ strip s ++ post.
Proof.
  destruct (lstrip_suffix s) as (pre & Hpre).
  destruct (lstrip_suffix (rev_str (lstrip s))) as (post & Hpost).
  exists pre, (rev_str post). unfold strip. rewrite <- rev_str_app, <- Hpost.
  now rewrite rev_str_involutive.
Qed.

Lemma strip_ends (s : string) :
  starts_with_space (strip s) = false /\ ends_with_space (strip s) = false.
Proof.
  split.
  - destruct (lstrip_suffix (rev_str (lstrip s))) as (post & Hpost).
    apply (f_equal rev_str) in Hpost.
    rewrite rev_str_involutive, rev_str_app in Hpost. fold (strip s) in Hpost.
    pose proof (lstrip_head s) as Hhead. rewrite Hpost in Hhead.
    destruct (strip s) as [|c m]; [reflexivity|exact Hhead].
  - unfold ends_with_space, strip. rewrite rev_str_involutive.
    apply lstrip_head.
Qed.

Lemma strip_fixed (t : string) :
  starts_with_space t = false -> ends_with_space t = false -> strip t = t.
Proof.
  intros H1 H2. unfold strip. rewrite (lstrip_fixed t H1).
  rewrite (lstrip_fixed (rev_str t) H2). apply rev_str_involutive.
Qed.

Lemma contains_split (c : ascii) (s : string) :
  contains c s = true -> exists a b, s = a ++ String c b.
Proof.
  induction s as [|x s IH]; simpl; [discriminate|].
  destruct (Ascii.eqb_spec x c) as [->|Hne]; simpl.
  - intros _. now exists "", s.
  - intros H. destruct (IH H) as (a & b & ->). now exists (String x a), b.
Qed.

(** A line holds its line end at its end, and nowhere else. *)
Lemma line_end_is_last (body u w : string) :
  contains newline body = false ->
  (u ++ String newline w = body ++ str1 newline
   \/ u ++ String newline w = body) ->
  w = "".
Proof.
  revert u; induction body as [|c body IH]; intros u Hbody [H|H].
  - destruct u as [|x u]; simpl in H; [now injection H|].
    injection H as _ H. destruct u; discriminate H.
  - destruct u; discriminate H.
  - simpl in Hbody. apply orb_false_iff in Hbody as [Hc Hbody].
    destruct u as [|x u]; simpl in H; injection H as Hx H.
    + subst c. now rewrite Ascii.eqb_refl in Hc.
    + apply (IH u Hbody). now left.
  - simpl in Hbody. apply orb_false_iff in Hbody as [Hc Hbody].
    destruct u as [|x u]; simpl in H; injection H as Hx H.
    + subst c. now rewrite Ascii.eqb_refl in Hc.
    + apply (IH u Hbody). now right.
Qed.

Lemma contains_rev_str (c : ascii) (s : string) :
  contains c (rev_str s) = contains c s.
Proof.
  induction s as [|x s IH]; [reflexivity|].
  rewrite rev_str_cons, contains_app, IH. simpl.
  rewrite orb_false_r. apply orb_comm.
Qed.

Lemma lines_from_shape (cur s : string) :
  contains newline cur = false ->
  forall line, In line (lines_from cur s) ->
    line <> ""
    /\ exists body,
         (line = body ++ str1 newline \/ line = body)
         /\ contains newline body = false.
Proof.
  revert cur; induction s as [|c s IH]; intros cur Hcur line; simpl.
  - destruct (String.eqb_spec cur "") as [->|Hne]; [intros []|].
    intros [<-|[]]. split.
    + intros H. apply (f_equal rev_str) in H.
      rewrite rev_str_involutive in H. now elim Hne.
    + exists (rev_str cur). split; [now right|now rewrite contains_rev_str].
  - destruct (code c =? 10) eqn:Hc.
    + intros [<-|Hin].
      * rewrite rev_str_cons. split.
        -- destruct (rev_str cur); discriminate.
        -- exists (rev_str cur). split; [|now rewrite contains_rev_str].
           left. f_equal. f_equal.
           apply Z.eqb_eq in Hc. unfold code in Hc. unfold newline, chr.
           rewrite <- (ascii_N_embedding c). f_equal. lia.
      * now apply (IH "").
    + apply IH. simpl. rewrite Hcur, orb_false_r.
      destruct (Ascii.eqb_spec c newline) as [->|]; [discriminate Hc|reflexivity].
Qed.

Lemma strip_line_one_line (line body : string) :
  (line = body ++ str1 newline \/ line = body) ->
  contains newline body = false ->
  contains newline (strip line) = false.
Proof.
  intros Hline Hbody.
  destruct (contains newline (strip line)) eqn:Hc; [|reflexivity].
  destruct (contains_split _ _ Hc) as (m1 & m2 & Hm).
  destruct (strip_inside line) as (pre & post & Hin).
  rewrite Hm, append_assoc, <- append_assoc in Hin. simpl in Hin.
  assert (m2 ++ post = "") as Hlast.
  { apply (line_end_is_last body (pre ++ m1) (m2 ++ post) Hbody).
    rewrite <- Hin. exact Hline. }
  assert (m2 = "") as -> by (destruct m2; [reflexivity|discriminate Hlast]).
  pose proof (proj2 (strip_ends line)) as Hend.
  unfold ends_with_space in Hend. rewrite Hm, rev_str_app in Hend.
  discriminate Hend.
Qed.

(** X13: every term read from a batch file is a usable term: it is not
    empty, it neither begins nor ends with white space (trimming it again
    changes nothing), and it holds no line break (line 106). *)
Theorem batch_file_terms_are_trimmed (text t : string) :
  In t (read_terms text) ->
  t <> ""
  /\ starts_with_space t = false
  /\ ends_with_space t = false
  /\ strip t = t
  /\ contains newline t = false.
Proof.
  unfold read_terms. rewrite in_flat_map. intros (line & Hline & Ht).
  destruct (String.eqb_spec (strip line) "") as [|Hne]; [destruct Ht|].
  destruct Ht as [<-|[]].
  destruct (strip_ends line) as [Hs He].
  split; [exact Hne|]. split; [exact Hs|]. split; [exact He|].
  split; [now apply strip_fixed|].
  destruct (lines_from_shape "" (universal_newlines text) eq_refl line Hline)
    as (_ & body & Hshape & Hbody).
  exact (strip_line_one_line line body Hshape Hbody).
Qed.

Lemma batch_file_terms_are_trimmed_witness :
  In "headache" (read_terms demo_file) /\ strip "headache" = "headache".
Proof.
  assert (In "headache" (read_terms demo_file)) as H by (right; now left).
  split; [exact H|].
  exact (proj1 (proj2 (proj2 (proj2
           (batch_file_terms_are_trimmed demo_file "headache" H))))).
Defined.

Lemma concat_cons (x : string) (l : list string) :
  String.concat "" (x :: l) = x ++ String.concat "" l.
Proof. destruct l; simpl; [now rewrite append_nil_r|reflexivity]. Qed.

Lemma lines_from_concat (cur s : string) :
  String.concat "" (lines_from cur s) = rev_str cur ++ s.
Proof.
  revert cur; induction s as [|c s IH]; intros cur; cbn [lines_from].
  - destruct (String.eqb_spec cur "") as [->|Hne]; [reflexivity|].
    now rewrite concat_cons.
  - destruct (code c =? 10).
    + rewrite concat_cons, IH, rev_str_cons, append_assoc. reflexivity.
    + rewrite IH, rev_str_cons, append_assoc. reflexivity.
Qed.

Lemma universal_newlines_same (s : string) :
  contains carriage_return s = false -> universal_newlines s = s.
Proof.
  induction s as [|c s IH]; simpl; [reflexivity|].
  intros H. apply orb_false_iff in H as [Hc Hs].
  destruct (code c =? 13) eqn:H13.
  - apply Z.eqb_eq in H13.
    assert (c = carriage_return) as ->.
    { unfold carriage_return, chr. rewrite <- (ascii_N_embedding c).
      f_equal. unfold code in H13. lia. }
    now rewrite Ascii.eqb_refl in Hc.
  - now rewrite (IH Hs).
Qed.

(** X14: the lines of a batch file put together give back its text:
    nothing is lost or added when the file is cut into lines, apart from
    the line ends [\r\n] and [\r], which are read as [\n].  No line is
    empty, and a line holds a line end at its end or not at all
    (lines 105-106, the iteration over the file). *)
Theorem lines_give_back_the_text (text : string) :
  String.concat "" (readlines text) = universal_newlines text
  /\ (contains carriage_return text = false ->
      String.concat "" (readlines text) = text)
  /\ forall line, In line (readlines text) ->
       line <> ""
       /\ exists body,
            (line = body ++ str1 newline \/ line = body)
            /\ contains newline body = false.
Proof.
  unfold readlines. split; [apply lines_from_concat|]. split.
  - intros H. rewrite lines_from_concat. now rewrite universal_newlines_same.
  - apply lines_from_shape. reflexivity.
Qed.

Lemma lines_give_back_the_text_witness :
  contains carriage_return demo_file = false
  /\ String.concat "" (readlines demo_file) = demo_file.
Proof.
  split; [reflexivity|].
  exact (proj1 (proj2 (lines_give_back_the_text demo_file)) eq_refl).
Defined.

(* ================================================================= *)
(** ** Further properties of the results *)

Lemma for_proc_app {A} (l1 l2 : list A) (body : A -> proc unit)
  (out : list string) :
  for_proc (l1 ++ l2)%list body out
  = match for_proc l1 body out with
    | (Return _, out') => for_proc l2 body out'
    | other => other
    end.
Proof.
  revert out; induction l1 as [|x l1 IH]; intros out; simpl; [reflexivity|].
  unfold seq. destruct (body x out) as [[[]|e|code] out']; [apply IH|reflexivity..].
Qed.

(** X15: in the [simple] output a similarity that the format [.3f]
    refuses (a text, a null, a list) ends the run with the exception,
    uncaught: the blocks of the entries before it are printed, then the
    [CUI: ] and [Preferred: ] lines of the entry itself, and nothing after
    them (lines 122-127). *)
Theorem simple_output_stops_at_bad_similarity (env : Env) (matcher : Matcher)
  (args : Args) (t : string) (before after : list entry) (r : match_record)
  (e : exception) :
  init_ok env matcher ->
  single_term_mode args t ->
  output args = simple_format ->
  query_quickumls matcher t = (before ++ Found r :: after)%list ->
  forallb printable before = true ->
  format_3f (similarity r) = inl e ->
  run (main env args)
  = (Traceback e,
     List.app (flat_map simple_block before)
       ["CUI: " ++ py_str (cui r);
        "Preferred: " ++ py_str (preferred_name r)]).
Proof.
  intros Hinit Hmode Hout Hq Hbefore Hfmt.
  rewrite (main_simple _ _ _ _ Hinit Hmode Hout), Hq, for_proc_app.
  rewrite (for_proc_simple_blocks before [] Hbefore).
  cbn [for_proc print_simple]. unfold seq, print, lift. rewrite Hfmt.
  simpl. now rewrite <- !app_assoc.
Qed.

Lemma simple_output_stops_at_bad_similarity_witness :
  run (main (demo_env tie_matcher []) (args_term "text" simple_format))
  = (Traceback (Exception "Unknown format code 'f' for object of type 'str'"),
     ["CUI: C1"; "Preferred: "]).
Proof.
  exact (simple_output_stops_at_bad_similarity (demo_env tie_matcher [])
           tie_matcher (args_term "text" simple_format) "text" [] []
           {| cui := PyStr "C1"; preferred_name := PyStr "";
              similarity := PyStr "high"; semtypes := [];
              method := "quickumls" |}
           (Exception "Unknown format code 'f' for object of type 'str'")
           (demo_init_ok _ _) (conj eq_refl (conj eq_refl eq_refl))
           eq_refl eq_refl eq_refl eq_refl).
Defined.

Lemma py_lt_none_right (a : pyval) : exists e, py_lt a PyNone = inl e.
Proof. destruct a; eexists; reflexivity. Qed.

Lemma py_lt_none_left (b : pyval) : exists e, py_lt PyNone b = inl e.
Proof. destruct b; eexists; reflexivity. Qed.

Section NullKey.
Context {A : Type}.
Variable key : A -> pyval.

Lemma insert_none_raises (x y : A) (l : list A) :
  key x = PyNone \/ key y = PyNone ->
  exists e, insert_desc key x (y :: l) = inl e.
Proof.
  intros [H|H]; simpl; rewrite H.
  - destruct (py_lt_none_right (key y)) as (e & ->). now exists e.
  - destruct (py_lt_none_left (key x)) as (e & ->). now exists e.
Qed.

Lemma insert_desc_nonempty (x : A) (l l' : list A) :
  insert_desc key x l = inr l' -> l' <> [].
Proof.
  intros H Hnil. apply insert_desc_perm in H.
  rewrite Hnil in H. apply Permutation_nil in H. discriminate H.
Qed.

Lemma sort_loop_none_head (l : list A) (y : A) (acc : list A) :
  key y = PyNone -> l <> [] ->
  exists e, for_each l (insert_desc key) (y :: acc) = inl e.
Proof.
  intros Hy Hl. destruct l as [|x l]; [now elim Hl|].
  cbn [for_each bind].
  destruct (insert_none_raises x y acc (or_intror Hy)) as (e & ->).
  now exists e.
Qed.

Lemma sort_loop_none (l acc : list A) :
  (exists x, In x l /\ key x = PyNone) ->
  acc <> [] \/ (2 <= List.length l)%nat ->
  exists e, for_each l (insert_desc key) acc = inl e.
Proof.
  revert acc; induction l as [|x l IH]; intros acc (z & Hz & Hnone) Hlen;
    [destruct Hz|].
  cbn [for_each bind].
  destruct (insert_desc key x acc) as [e|acc'] eqn:Hi; [now exists e|].
  cbn [bind].
  destruct Hz as [->|Hz].
  - destruct acc as [|y acc].
    + injection Hi as <-.
      apply sort_loop_none_head; [exact Hnone|].
      destruct Hlen as [H|H]; [now elim H|].
      destruct l; [simpl in H; lia|discriminate].
    + destruct (insert_none_raises z y acc (or_introl Hnone)) as (e & He).
      rewrite He in Hi. discriminate.
  - apply IH; [now exists z|]. left. exact (insert_desc_nonempty _ _ _ Hi).
Qed.
End NullKey.

(** X16: a similarity that is null cannot be compared.  When the
    matcher returns two candidates or more and the similarity of one of
    them is null, the sort raises and the whole lookup comes back as one
    error entry: the other candidates are lost with it.  A candidate that
    is alone is not compared with anything and is returned, whatever its
    similarity (lines 68-73). *)
Theorem lookup_with_null_similarity (matcher : Matcher) (term : string)
  matches rs :
  match_ matcher term true false = inr matches ->
  normalize_each (candidates matches) = inr rs ->
  ((2 <= List.length rs)%nat ->
   (exists r, In r rs /\ similarity r = PyNone) ->
   exists e, query_quickumls matcher term
             = [Failed ("QuickUMLS query failed: " ++ exn_str e)])
  /\ (forall r, rs = [r] -> query_quickumls matcher term = [Found r]).
Proof.
  intros Hm Hn. split.
  - intros Hlen Hnone.
    destruct (sort_loop_none similarity rs [] Hnone (or_intror Hlen)) as (e & He).
    exists e. apply query_raised. rewrite query_body_eq, Hm. cbn [bind].
    rewrite Hn. cbn [bind]. unfold sort_reverse. now rewrite He.
  - intros r ->. unfold query_quickumls. rewrite query_body_eq, Hm. cbn [bind].
    rewrite Hn. reflexivity.
Qed.

Lemma lookup_with_null_similarity_witness :
  query_quickumls tie_matcher "null"
  = [Failed ("QuickUMLS query failed: "
             ++ "'<' not supported between instances of 'NoneType' and 'float'")].
Proof.
  destruct (proj1 (lookup_with_null_similarity tie_matcher "null" _ _
                     eq_refl eq_refl)) as (e & He).
  - simpl; lia.
  - eexists; split; [left; reflexivity|reflexivity].
  - reflexivity.
Defined.

(** X17: what an entry of a lookup holds.  Every candidate entry has
    the method ["quickumls"], and its code, similarity and semantic types
    are those of one of the candidates of the matcher, with the empty
    text for a missing ["cui"], [0.0] for a missing ["similarity"] and no
    semantic type for missing ["semtypes"]; semantic types given as a
    text come out as its characters (lines 48-66). *)
Theorem entry_fields (matcher : Matcher) (term : string) (r : match_record) :
  In (Found r) (query_quickumls matcher term) ->
  method r = "quickumls"
  /\ exists matches c,
       match_ matcher term true false = inr matches
       /\ In c (candidates matches)
       /\ cui r = match dict_get c "cui" with
                  | Some v => v
                  | None => PyStr ""
                  end
       /\ similarity r = match dict_get c "similarity" with
                         | Some v => v
                         | None => PyFloat (S754_zero false)
                         end
       /\ match dict_get c "semtypes" with
          | Some (PyList l) => semtypes r = l
          | Some (PyStr s) => semtypes r = List.map str1 (chars s)
          | Some _ => False
          | None => semtypes r = []
          end.
Proof.
  intros Hin.
  destruct (found_entries_from_candidates _ _ _ Hin) as (matches & c & Hm & Hc & Hr).
  apply normalize_fields in Hr as (Hcui & _ & Hsim & Hsem & Hmeth).
  split; [exact Hmeth|]. exists matches, c.
  split; [exact Hm|]. split; [exact Hc|]. split; [exact Hcui|].
  split; [exact Hsim|].
  unfold get in Hsem.
  destruct (dict_get c "semtypes") as [[| | | |s|l]|]; simpl in Hsem;
    try discriminate; now injection Hsem.
Qed.

Lemma entry_fields_witness :
  In (Found {| cui := PyStr ""; preferred_name := PyStr "";
               similarity := PyFloat (S754_zero false); semtypes := [];
               method := "quickumls" |})
    (query_quickumls {| match_ _ _ _ := ret [[bare_candidate]] |} "fever")
  /\ method {| cui := PyStr ""; preferred_name := PyStr "";
               similarity := PyFloat (S754_zero false); semtypes := [];
               method := "quickumls" |} = "quickumls".
Proof.
  assert (In (Found {| cui := PyStr ""; preferred_name := PyStr "";
                       similarity := PyFloat (S754_zero false); semtypes := [];
                       method := "quickumls" |})
            (query_quickumls {| match_ _ _ _ := ret [[bare_candidate]] |} "fever"))
    as H by (now left).
  split; [exact H|].
  exact (proj1 (entry_fields _ _ _ H)).
Defined.

(* ================================================================= *)
(** ** Properties of the environment provisioner *)

Import Installer.

Lemma run_command_effect (host : Host) (cmd : command) (description : string)
  (m : machine) :
  exists lines,
    run_command host cmd description m
    = (match subprocess_run host cmd with
       | Completed stdout stderr =>
           Return (Some {| cp_stdout := stdout; cp_stderr := stderr |})
       | CalledProcessError _ _ _ => Return None
       | OtherError e => Raise e
       end,
       {| printed := lines; executed := (executed m ++ [cmd])%list;
          created := created m; written := written m;
          removed := removed m |}).
Proof.
  unfold run_command, and_then, say, run_subprocess, say_if_any, done, throw.
  cbn. destruct (subprocess_run host cmd) as [so se|code so se|e]; cbn;
    repeat match goal with
           | |- context [String.eqb ?a ""] => destruct (String.eqb a ""); cbn
           end;
    eexists; reflexivity.
Qed.

Lemma install_dependency_effect (host : Host) (dep : string) (m : machine) :
  exists lines,
    install_dependency host dep m
    = (match subprocess_run host (install_package dep) with
       | OtherError e => Raise e
       | _ => Return tt
       end,
       {| printed := lines;
          executed := (executed m ++ [install_package dep])%list;
          created := created m; written := written m;
          removed := removed m |}).
Proof.
  unfold install_dependency, and_then.
  destruct (run_command_effect host (install_package dep) ("Install " ++ dep) m)
    as (lines & ->).
  destruct (subprocess_run host (install_package dep)); cbn;
    eexists; reflexivity.
Qed.

(** The loop over the dependencies runs them all, in order, or stops at
    the first one that cannot be run. *)
Lemma dependencies_effect (host : Host) (deps : list string) (m : machine) :
  exists lines,
    (forallb (runs host) (List.map install_package deps) = true
     /\ for_step deps (install_dependency host) m
        = (Return tt,
           {| printed := lines;
              executed := (executed m ++ List.map install_package deps)%list;
              created := created m; written := written m;
              removed := removed m |}))
    \/ (exists e pre cmd,
          forallb (runs host) pre = true
          /\ subprocess_run host cmd = OtherError e
          /\ for_step deps (install_dependency host) m
             = (Raise e,
                {| printed := lines;
                   executed := (executed m ++ pre ++ [cmd])%list;
                   created := created m; written := written m;
                   removed := removed m |})).
Proof.
  revert m; induction deps as [|dep deps IH]; intros m; cbn [for_step List.map].
  - exists (printed m). left. split; [reflexivity|].
    unfold done. rewrite app_nil_r. now destruct m.
  - unfold and_then.
    destruct (install_dependency_effect host dep m) as (lines & ->).
    destruct (subprocess_run host (install_package dep)) as [so se|code so se|e]
      eqn:Hdep.
    + match goal with
      | |- context [for_step deps _ ?m'] => destruct (IH m') as (lines' & H)
      end.
      exists lines'. cbn [executed created written removed] in H.
      destruct H as [(Hruns & ->)|(e & pre & cmd & Hpre & Hcmd & ->)].
      * left. cbn [forallb]. unfold runs at 1. rewrite Hdep, Hruns.
        split; [reflexivity|]. now rewrite <- app_assoc.
      * right. exists e, (install_package dep :: pre), cmd.
        cbn [forallb]. unfold runs at 1. rewrite Hdep, Hpre.
        split; [reflexivity|]. split; [exact Hcmd|]. now rewrite <- !app_assoc.
    + match goal with
      | |- context [for_step deps _ ?m'] => destruct (IH m') as (lines' & H)
      end.
      exists lines'. cbn [executed created written removed] in H.
      destruct H as [(Hruns & ->)|(e & pre & cmd & Hpre & Hcmd & ->)].
      * left. cbn [forallb]. unfold runs at 1. rewrite Hdep, Hruns.
        split; [reflexivity|]. now rewrite <- app_assoc.
      * right. exists e, (install_package dep :: pre), cmd.
        cbn [forallb]. unfold runs at 1. rewrite Hdep, Hpre.
        split; [reflexivity|]. split; [exact Hcmd|]. now rewrite <- !app_assoc.
    + exists lines. right. exists e, [], (install_package dep).
      split; [reflexivity|]. split; [exact Hdep|reflexivity].
Qed.

(** *** Rules for the steps of the script *)

Lemma ends_done {A} (a : A) (m : machine) Q ex cr wr rm :
  effects m = (ex, cr, wr, rm) -> Q (Return a) ex cr wr rm ->
  ends (done a) m Q.
Proof. unfold effects, ends. intros [= <- <- <- <-] H. exact H. Qed.

Lemma ends_exit_with {A} (code : Z) (m : machine) Q ex cr wr rm :
  effects m = (ex, cr, wr, rm) -> Q (Exit code) ex cr wr rm ->
  ends (@exit_with A code) m Q.
Proof. unfold effects, ends. intros [= <- <- <- <-] H. exact H. Qed.

Lemma ends_say (s : string) (m : machine) Q ex cr wr rm :
  effects m = (ex, cr, wr, rm) -> Q (Return tt) ex cr wr rm ->
  ends (say s) m Q.
Proof. unfold effects, ends. intros [= <- <- <- <-] H. exact H. Qed.

Lemma ends_and_then {A B} (c : step A) (k : A -> step B) (m : machine) Q :
  ends c m
    (fun o ex cr wr rm =>
       match o with
       | Return a =>
           forall m', effects m' = (ex, cr, wr, rm) -> ends (k a) m' Q
       | Raise e => Q (Raise e) ex cr wr rm
       | Exit code => Q (Exit code) ex cr wr rm
       end) ->
  ends (and_then c k) m Q.
Proof.
  unfold ends, and_then. destruct (c m) as [[a|e|code] m']; cbn [fst snd];
    intros H; [|exact H..].
  exact (H m' eq_refl).
Qed.

Lemma ends_run_command (host : Host) (cmd : command) (description : string)
  (m : machine) Q ex cr wr rm :
  effects m = (ex, cr, wr, rm) ->
  Q (match subprocess_run host cmd with
     | Completed stdout stderr =>
         Return (Some {| cp_stdout := stdout; cp_stderr := stderr |})
     | CalledProcessError _ _ _ => Return None
     | OtherError e => Raise e
     end)
    (ex ++ [cmd])%list cr wr rm ->
  ends (run_command host cmd description) m Q.
Proof.
  unfold effects, ends. intros [= <- <- <- <-].
  destruct (run_command_effect host cmd description m) as (lines & ->).
  exact (fun H => H).
Qed.

Lemma ends_dependencies (host : Host) (deps : list string) (m : machine) Q
  ex cr wr rm :
  effects m = (ex, cr, wr, rm) ->
  (forallb (runs host) (List.map install_package deps) = true ->
   Q (Return tt) (ex ++ List.map install_package deps)%list cr wr rm) ->
  (forall e pre cmd,
      forallb (runs host) pre = true ->
      subprocess_run host cmd = OtherError e ->
      Q (Raise e) ((ex ++ pre) ++ [cmd])%list cr wr rm) ->
  ends (for_step deps (install_dependency host)) m Q.
Proof.
  unfold effects. intros [= <- <- <- <-] Hall Hstop. unfold ends.
  destruct (dependencies_effect host deps m)
    as (lines & [(Hruns & ->)|(e & pre & cmd & Hpre & Hcmd & ->)]);
    cbn [fst snd executed created written removed].
  - exact (Hall Hruns).
  - rewrite app_assoc. exact (Hstop e pre cmd Hpre Hcmd).
Qed.

Lemma ends_create_temp (host : Host) (m : machine) Q ex cr wr rm :
  effects m = (ex, cr, wr, rm) ->
  match mkstemp host with
  | inl e => Q (Raise e) ex cr wr rm
  | inr name => Q (Return name) ex (cr ++ [name])%list wr rm
  end ->
  ends (create_temp host) m Q.
Proof.
  unfold effects, ends, create_temp. intros [= <- <- <- <-].
  destruct (mkstemp host); exact (fun H => H).
Qed.

Lemma ends_write_text (host : Host) (name text : string) (m : machine) Q
  ex cr wr rm :
  effects m = (ex, cr, wr, rm) ->
  match write_close host name text with
  | inl e => Q (Raise e) ex cr wr rm
  | inr _ => Q (Return tt) ex cr (wr ++ [(name, text)])%list rm
  end ->
  ends (write_text host name text) m Q.
Proof.
  unfold effects, ends, write_text. intros [= <- <- <- <-].
  destruct (write_close host name text); exact (fun H => H).
Qed.

Lemma ends_os_unlink (host : Host) (path : string) (m : machine) Q
  ex cr wr rm :
  effects m = (ex, cr, wr, rm) ->
  match unlink host path with
  | inl e => Q (Raise e) ex cr wr rm
  | inr _ => Q (Return tt) ex cr wr (rm ++ [path])%list
  end ->
  ends (os_unlink host path) m Q.
Proof.
  unfold effects, ends, os_unlink. intros [= <- <- <- <-].
  destruct (unlink host path); exact (fun H => H).
Qed.

Lemma ends_try_finally {A} (body : step A) (cleanup : step unit)
  (m : machine) Q :
  ends body m
    (fun o ex cr wr rm =>
       forall m', effects m' = (ex, cr, wr, rm) ->
         ends cleanup m'
           (fun o' ex' cr' wr' rm' =>
              Q (match o' with
                 | Return _ => o
                 | Raise e => Raise e
                 | Exit code => Exit code
                 end) ex' cr' wr' rm')) ->
  ends (try_finally body cleanup) m Q.
Proof.
  unfold ends, try_finally. destruct (body m) as [o m']; cbn [fst snd].
  intros H. specialize (H m' eq_refl).
  destruct (cleanup m') as [[[]|e|code] m'']; exact H.
Qed.

(** The run of the script ends as its steps end. *)
Lemma install_ends (host : Host) Q :
  (forall m, effects m = ([], [], [], []) -> ends (script host) m Q) ->
  exists o,
    fst (Installer.install host) = status_of o
    /\ Q o (executed (snd (Installer.install host)))
         (created (snd (Installer.install host)))
         (written (snd (Installer.install host)))
         (removed (snd (Installer.install host))).
Proof.
  intros H. specialize (H start eq_refl). revert H.
  unfold ends, Installer.install.
  destruct (script host start) as [[[]|e|code] m]; cbn [fst snd]; intros H;
    eexists; (split; [|exact H]); reflexivity.
Qed.

(** Walks through the steps of the script with the rules above. *)
Ltac walk :=
  repeat
    (cbv beta;
     match goal with
     | |- forall m', effects m' = _ -> _ =>
         let m' := fresh "m" in
         let Hm := fresh "Hm" in
         intros m' Hm
     | |- ends (and_then _ _) _ _ => apply ends_and_then
     | |- ends (try_finally _ _) _ _ => apply ends_try_finally
     | |- ends (if ?b then _ else _) _ _ => destruct b eqn:?
     | Hm : effects ?m = _ |- ends (say _) ?m _ =>
         apply (ends_say _ _ _ _ _ _ _ Hm)
     | Hm : effects ?m = _ |- ends (done _) ?m _ =>
         apply (ends_done _ _ _ _ _ _ _ Hm)
     | Hm : effects ?m = _ |- ends (exit_with _) ?m _ =>
         apply (ends_exit_with _ _ _ _ _ _ _ Hm)
     | Hm : effects ?m = _ |- ends (run_command ?h ?c _) ?m _ =>
         apply (ends_run_command _ _ _ _ _ _ _ _ _ Hm);
         destruct (subprocess_run h c) eqn:?
     | Hm : effects ?m = _ |- ends (for_step _ (install_dependency _)) ?m _ =>
         apply (ends_dependencies _ _ _ _ _ _ _ _ Hm);
         [intros ?Hdeps|intros ?e ?pre ?cmd ?Hpre ?Hcmd]
     | Hm : effects ?m = _ |- ends (create_temp ?h) ?m _ =>
         apply (ends_create_temp _ _ _ _ _ _ _ Hm);
         destruct (mkstemp h) eqn:?
     | Hm : effects ?m = _ |- ends (write_text ?h ?n ?t) ?m _ =>
         apply (ends_write_text _ _ _ _ _ _ _ _ _ Hm);
         destruct (write_close h n t) eqn:?
     | Hm : effects ?m = _ |- ends (os_unlink ?h ?p) ?m _ =>
         apply (ends_os_unlink _ _ _ _ _ _ _ _ Hm);
         destruct (unlink h p) eqn:?
     end).

(** Uses what the host answered to the commands that were run and to the
    calls on the temporary file. *)
Ltac use_answers :=
  repeat match goal with
         | H : subprocess_run _ _ = _ |- _ => rewrite H; cbv beta iota
         | H : mkstemp _ = _ |- _ => rewrite H; cbv beta iota
         | H : write_close _ _ _ = _ |- _ => rewrite H; cbv beta iota
         | H : unlink _ _ = _ |- _ => rewrite H; cbv beta iota
         end.

(** What [H], on the name of the temporary file, says when the file has
    been created and written as the equations at hand tell. *)
Ltac temp_file_is H :=
  unfold temp_name in H;
  repeat match goal with
         | E : mkstemp _ = _ |- _ => rewrite E in H; cbv beta iota in H
         | E : write_close _ _ _ = _ |- _ => rewrite E in H; cbv beta iota in H
         end;
  try discriminate H;
  try (injection H as ->).

Ltac cannot_run Hruns :=
  match goal with
  | H : subprocess_run ?h ?c = OtherError _ |- _ =>
      let X := fresh in
      pose proof (Hruns c) as X; unfold runs in X; rewrite H in X;
      discriminate X
  end.

(** X18: on a host where every command can be run, the provisioner ends
    with exit code 1 when creating the environment, upgrading pip or
    installing QuickUMLS exits with another code than 0.  When the three
    exit with 0 it goes on to the import test: if the temporary file can
    be created, written and, at the end, removed, it ends with exit code
    0 when the test exits with 0 and with exit code 1 when it does not;
    if writing the file or removing it raises, it ends with that
    exception, uncaught.  Whether the old environment could be removed
    and whether the dependencies could be installed does not count
    (lines 54-57, 64-67, 82-91, 113-135). *)
Theorem provisioner_exit_code (host : Host) :
  (forall cmd, runs host cmd = true) ->
  fst (Installer.install host)
  = if completes host (create_venv host)
       && completes host upgrade_pip
       && completes host (install_package "quickumls")
    then
      match temp_name host with
      | inl e => Traceback e
      | inr test_file =>
          match unlink host test_file with
          | inl e => Traceback e
          | inr _ =>
              Exited (if completes host (run_test test_file) then 0 else 1)
          end
      end
    else Exited 1.
Proof.
  intros Hruns.
  destruct (install_ends host
              (fun o _ _ _ _ =>
                 status_of o
                 = if completes host (create_venv host)
                      && completes host upgrade_pip
                      && completes host (install_package "quickumls")
                   then
                     match temp_name host with
                     | inl e => Traceback e
                     | inr test_file =>
                         match unlink host test_file with
                         | inl e => Traceback e
                         | inr _ =>
                             Exited (if completes host (run_test test_file)
                                     then 0 else 1)
                         end
                     end
                   else Exited 1))
    as (o & Hstatus & H); [|rewrite Hstatus; exact H].
  unfold script, Installer.main, write_temp. walk.
  all: try cannot_run Hruns.
  all: unfold completes, temp_name; use_answers; reflexivity.
Qed.

Lemma demo_host_runs (existing : bool) (failing : list string) (cmd : command) :
  runs (demo_host existing failing) cmd = true.
Proof.
  unfold runs, demo_host; cbn.
  destruct (existsb (String.eqb (command_text cmd)) failing); reflexivity.
Defined.

Lemma provisioner_exit_code_witness :
  fst (Installer.install
         (demo_host true
            [command_text remove_venv;
             command_text (install_package "numpy")]))
  = Exited 0
  /\ fst (Installer.install
            (demo_host false [command_text (install_package "quickumls")]))
     = Exited 1
  /\ fst (Installer.install host_that_keeps_files)
     = Traceback
         (Exception "[Errno 13] Permission denied: '/tmp/tmpabc.py'").
Proof.
  split; [|split].
  - exact (provisioner_exit_code _ (demo_host_runs _ _)).
  - exact (provisioner_exit_code _ (demo_host_runs _ _)).
  - exact (provisioner_exit_code host_that_keeps_files (fun _ => eq_refl)).
Defined.

(** X19: the provisioner runs its commands in a fixed order and stops at
    the first step it needs: the removal of an old environment when there
    is one, the creation of the environment, then, only if that exited
    with 0, the upgrade of pip, then, only if that exited with 0, every
    dependency in the order of the list, whether or not the ones before
    could be installed, and QuickUMLS, and then, only if that exited with
    0, the import test.  Nothing is run after a needed step has failed
    (lines 50-118). *)
Theorem provisioner_commands (host : Host) (test_file : string) :
  (forall cmd, runs host cmd = true) ->
  temp_name host = inr test_file ->
  unlink host test_file = inr tt ->
  executed (snd (Installer.install host))
  = ((if venv_exists host then [remove_venv] else [])
     ++ create_venv host
     :: (if completes host (create_venv host) then
           upgrade_pip
           :: (if completes host upgrade_pip then
                 List.map install_package dependencies
                 ++ install_package "quickumls"
                 :: (if completes host (install_package "quickumls")
                     then [run_test test_file] else [])
               else [])
         else []))%list.
Proof.
  intros Hruns Htemp Hunlink.
  destruct (install_ends host
              (fun _ ex _ _ _ =>
                 ex = ((if venv_exists host then [remove_venv] else [])
                       ++ create_venv host
                       :: (if completes host (create_venv host) then
                             upgrade_pip
                             :: (if completes host upgrade_pip then
                                   List.map install_package dependencies
                                   ++ install_package "quickumls"
                                   :: (if completes host (install_package "quickumls")
                                       then [run_test test_file] else [])
                                 else [])
                           else []))%list))
    as (o & _ & H); [|exact H].
  unfold script, Installer.main, write_temp. walk.
  all: temp_file_is Htemp.
  all: try cannot_run Hruns.
  all: try congruence.
  all: unfold completes; use_answers.
  all: repeat match goal with H : venv_exists _ = _ |- _ => rewrite H end.
  all: rewrite <- ?app_assoc; reflexivity.
Qed.

Lemma provisioner_commands_witness :
  executed (snd (Installer.install
                   (demo_host true [command_text upgrade_pip])))
  = [remove_venv;
     create_venv (demo_host true [command_text upgrade_pip]);
     upgrade_pip].
Proof.
  exact (provisioner_commands (demo_host true [command_text upgrade_pip])
           "/tmp/tmpabc.py" (demo_host_runs _ _) eq_refl eq_refl).
Defined.

(** X20: what becomes of the temporary file.  The provisioner creates at
    most one, for the import test.  The file is created and written
    before the [try] whose [finally] removes it (lines 113-117): when
    writing or closing it raises, the file is left behind, nothing
    removes it, and the run ends with that exception.  Once the file is
    written, holding the test script, [os.unlink] is called on it however
    the test ends, also when the test cannot be run at all: the file is
    removed, unless [os.unlink] raises, and then the run ends with the
    exception of [os.unlink] (lines 113-131). *)
Theorem temporary_file_fate (host : Host) :
  (created (snd (Installer.install host)) = []
   /\ written (snd (Installer.install host)) = []
   /\ removed (snd (Installer.install host)) = [])
  \/ exists name,
       mkstemp host = inr name
       /\ created (snd (Installer.install host)) = [name]
       /\ match write_close host name test_script with
          | inl e =>
              written (snd (Installer.install host)) = []
              /\ removed (snd (Installer.install host)) = []
              /\ fst (Installer.install host) = Traceback e
          | inr _ =>
              written (snd (Installer.install host)) = [(name, test_script)]
              /\ match unlink host name with
                 | inr _ => removed (snd (Installer.install host)) = [name]
                 | inl e =>
                     removed (snd (Installer.install host)) = []
                     /\ fst (Installer.install host) = Traceback e
                 end
          end.
Proof.
  destruct (install_ends host
              (fun o _ cr wr rm =>
                 (cr = [] /\ wr = [] /\ rm = [])
                 \/ exists name,
                      mkstemp host = inr name
                      /\ cr = [name]
                      /\ match write_close host name test_script with
                         | inl e =>
                             wr = [] /\ rm = [] /\ status_of o = Traceback e
                         | inr _ =>
                             wr = [(name, test_script)]
                             /\ match unlink host name with
                                | inr _ => rm = [name]
                                | inl e =>
                                    rm = [] /\ status_of o = Traceback e
                                end
                         end))
    as (o & Hstatus & H); [|rewrite Hstatus; exact H].
  unfold script, Installer.main, write_temp. walk.
  all: first
         [ solve [left; repeat split]
         | right; eexists; split; [reflexivity|]; split; [reflexivity|];
           use_answers; repeat split ].
Qed.

Lemma temporary_file_fate_witness :
  created (snd (Installer.install host_with_full_disk)) = ["/tmp/tmpabc.py"]
  /\ removed (snd (Installer.install host_with_full_disk)) = []
  /\ fst (Installer.install host_with_full_disk)
     = Traceback (Exception "[Errno 28] No space left on device").
Proof.
  destruct (temporary_file_fate host_with_full_disk)
    as [(Hcr & _)|(name & Hname & Hcr & Hwr)].
  - vm_compute in Hcr. discriminate Hcr.
  - injection Hname as <-.
    change (written (snd (Installer.install host_with_full_disk)) = []
            /\ removed (snd (Installer.install host_with_full_disk)) = []
            /\ fst (Installer.install host_with_full_disk)
               = Traceback (Exception "[Errno 28] No space left on device"))
      in Hwr.
    split; [exact Hcr|]. exact (proj2 Hwr).
Defined.

(** X21: a command that cannot be run at all is not a failed step.
    [run_command] catches only the error of a command that exits with
    another code than 0; when the temporary file can be written and
    removed, the provisioner ends with an uncaught exception exactly when
    the last command it ran could not be run, having run nothing after
    it, and ends with exit code 0 or 1 when every command it ran could be
    run (lines 20-38). *)
Theorem provisioner_endings (host : Host) (test_file : string) :
  temp_name host = inr test_file ->
  (forall path, unlink host path = inr tt) ->
  match fst (Installer.install host) with
  | Traceback e =>
      exists before cmd,
        executed (snd (Installer.install host)) = (before ++ [cmd])%list
        /\ subprocess_run host cmd = OtherError e
        /\ forallb (runs host) before = true
  | Exited code =>
      (code = 0 \/ code = 1)
      /\ forallb (runs host) (executed (snd (Installer.install host))) = true
  end.
Proof.
  intros Htemp Hunlink.
  destruct (install_ends host
              (fun o ex _ _ _ =>
                 match o with
                 | Raise e =>
                     exists before cmd,
                       ex = (before ++ [cmd])%list
                       /\ subprocess_run host cmd = OtherError e
                       /\ forallb (runs host) before = true
                 | Exit code =>
                     (code = 0 \/ code = 1) /\ forallb (runs host) ex = true
                 | Return _ => False
                 end))
    as (o & Hstatus & H).
  - unfold script, Installer.main, write_temp. walk.
    all: try (match goal with
              | H : unlink _ _ = inl _ |- _ =>
                  rewrite Hunlink in H; discriminate H
              end).
    all: temp_file_is Htemp.
    all: try (eexists; eexists; split; [reflexivity|split; [eassumption|]]).
    all: try (split; [auto|]).
    all: rewrite ?forallb_app.
    all: repeat match goal with
                | H : forallb (runs _) _ = true |- _ => rewrite H
                end.
    all: cbn [forallb]; unfold runs; use_answers.
    all: reflexivity.
  - rewrite Hstatus. destruct o as [[]|e|code]; [destruct H|exact H|exact H].
Qed.

Lemma provisioner_endings_witness :
  exists before cmd,
    executed (snd (Installer.install host_without_pip)) = (before ++ [cmd])%list
    /\ subprocess_run host_without_pip cmd
       = OtherError (Exception "[Errno 2] No such file or directory")
    /\ forallb (runs host_without_pip) before = true.
Proof.
  exact (provisioner_endings host_without_pip "/tmp/tmpabc.py" eq_refl
           (fun _ => eq_refl)).
Defined.
